(** * Terminology tools: the lookup-code and validate-code handlers

    A shallow embedding of [tx-tools/src/server.ts].  The two handlers are
    asynchronous JavaScript functions; here an [await]ed computation is a
    value of the error monad [Result], the network and the URL constructor
    are parameters of the handlers, and the JavaScript operators the
    handlers use (property reads, optional chaining, [??], [!], [===],
    [Array.prototype.find], [JSON.stringify]) are functions on a type of
    JavaScript values. *)

From Stdlib Require Import Strings.String Strings.Ascii Lists.List Bool.Bool.
From Stdlib Require Import NArith.NArith Arith.PeanoNat micromega.Lia.
From Stdlib Require Import Numbers.DecimalString Numbers.DecimalN Init.Decimal.
Import ListNotations.

Local Open Scope list_scope.
Local Open Scope string_scope.

(** ** JavaScript values *)

(** A JavaScript string is a sequence of code units; the model carries the
    code units 0..255 one per character.  A number is carried as the text
    that [Number.prototype.toString] gives it ("0", "3", "1.5", "1e+21"),
    both zeros being "0": stringification and truthiness need nothing
    else of a number.  An object is its list of own properties in
    enumeration order. *)
#[warnings="-register-all"]
Inductive value : Type :=
| VUndefined
| VNull
| VBool (b : bool)
| VNumber (lit : string)
| VString (s : string)
| VArray (elems : list value)
| VObject (props : list (string * value)).

Definition nl : string := String (ascii_of_nat 10) EmptyString.
Definition dquote : string := String (ascii_of_nat 34) EmptyString.
Definition backslash : string := String (ascii_of_nat 92) EmptyString.

(** [String(n)] for a non-negative integer. *)
Definition decimal (n : N) : string := NilZero.string_of_uint (N.to_uint n).

Definition number_of_nat (n : nat) : value := VNumber (decimal (N.of_nat n)).

(** Own-property lookup in a property list. *)
Fixpoint lookup (k : string) (ps : list (string * value)) : option value :=
  match ps with
  | [] => None
  | (k', v) :: rest => if (k' =? k)%string then Some v else lookup k rest
  end.

(** The own property [k] of a property list, [undefined] without one. *)
Definition field (k : string) (ps : list (string * value)) : value :=
  match lookup k ps with
  | Some v => v
  | None => VUndefined
  end.

Definition nullish (v : value) : bool :=
  match v with
  | VUndefined | VNull => true
  | _ => false
  end.

(** [ToBoolean]. *)
Definition truthy (v : value) : bool :=
  match v with
  | VUndefined | VNull => false
  | VBool b => b
  | VNumber lit => negb ((lit =? "0") || (lit =? "NaN"))
  | VString s => negb (s =? EmptyString)
  | VArray _ | VObject _ => true
  end.

(** [a ?? b]. *)
Definition coalesce (a b : value) : value := if nullish a then b else a.

(** [v === "lit"] for a string literal. *)
Definition strict_eq_string (v : value) (lit : string) : bool :=
  match v with
  | VString s => (s =? lit)%string
  | _ => false
  end.

(** ** Exceptions and awaited computations *)

(** What a [catch] clause receives: an [Error] with its message, or any
    other thrown value, carried as the text [String(error)] gives it. *)
Inductive exn : Type :=
| ErrorObj (message : string)
| Thrown (asString : string).

(** [error instanceof Error ? error.message : String(error)]. *)
Definition error_text (e : exn) : string :=
  match e with
  | ErrorObj m => m
  | Thrown s => s
  end.

Inductive Result (A : Type) : Type :=
| Ok (a : A)
| Throw (e : exn).
Arguments Ok {A} a.
Arguments Throw {A} e.

Definition bind {A B : Type} (c : Result A) (k : A -> Result B) : Result B :=
  match c with
  | Ok a => k a
  | Throw e => Throw e
  end.

Notation "x <- c ;; k" := (bind c (fun x => k))
  (at level 61, c at next level, right associativity).

(** [try { body } catch (error) { handler }]. *)
Definition try_catch {A : Type} (body : Result A) (handler : exn -> A) : A :=
  match body with
  | Ok a => a
  | Throw e => handler e
  end.

Definition throws {A : Type} (c : Result A) : Prop := exists e, c = Throw e.

(** The message V8 gives to a property read on [undefined] or [null]. *)
Definition cannot_read (v : value) (k : string) : exn :=
  ErrorObj ("Cannot read properties of "
            ++ (match v with VNull => "null" | _ => "undefined" end)
            ++ " (reading '" ++ k ++ "')").

(** [v.k] for the property names the handlers read ([expansion],
    [contains], [length], [parameter], [name], [valueBoolean], [valueCode],
    [valueUri], [valueString]); none of them is inherited from a prototype
    but [length], which arrays and strings have. *)
Definition get_prop (v : value) (k : string) : Result value :=
  match v with
  | VUndefined | VNull => Throw (cannot_read v k)
  | VObject ps => Ok (field k ps)
  | VArray xs =>
      Ok (if (k =? "length")%string then number_of_nat (List.length xs)
          else VUndefined)
  | VString s =>
      Ok (if (k =? "length")%string then number_of_nat (String.length s)
          else VUndefined)
  | VBool _ | VNumber _ => Ok VUndefined
  end.

(** [v?.k]. *)
Definition opt_get (v : value) (k : string) : Result value :=
  if nullish v then Ok VUndefined else get_prop v k.

(** [v[i]] for an integer index. *)
Definition get_index (v : value) (i : nat) : Result value :=
  match v with
  | VUndefined | VNull => Throw (cannot_read v (decimal (N.of_nat i)))
  | VObject ps => Ok (field (decimal (N.of_nat i)) ps)
  | VArray xs => Ok (nth i xs VUndefined)
  | VString s =>
      Ok (match String.get i s with
          | Some c => VString (String c EmptyString)
          | None => VUndefined
          end)
  | VBool _ | VNumber _ => Ok VUndefined
  end.

(** [Array.prototype.find]: the first element the callback accepts, or
    [undefined]; a throwing callback ends the search. *)
Fixpoint array_find (cb : value -> Result bool) (xs : list value)
  : Result value :=
  match xs with
  | [] => Ok VUndefined
  | x :: rest =>
      b <- cb x ;;
      if b then Ok x else array_find cb rest
  end.

(** [recv?.find(cb)]: only arrays have a callable [find]. *)
Definition opt_call_find (callee : string) (recv : value)
                         (cb : value -> Result bool) : Result value :=
  match recv with
  | VUndefined | VNull => Ok VUndefined
  | VArray xs => array_find cb xs
  | _ => Throw (ErrorObj (callee ++ " is not a function"))
  end.

(** ** JSON.stringify(v, null, 2) *)

Definition hex_digit (n : nat) : ascii :=
  ascii_of_nat (if (n <? 10)%nat then 48 + n else 87 + n).

(** The escape of one code unit in [QuoteJSONString]. *)
Definition escape_unit (c : ascii) : string :=
  let n := nat_of_ascii c in
  if (n =? 34)%nat then backslash ++ dquote
  else if (n =? 92)%nat then backslash ++ backslash
  else if (n =? 8)%nat then backslash ++ "b"
  else if (n =? 12)%nat then backslash ++ "f"
  else if (n =? 10)%nat then backslash ++ "n"
  else if (n =? 13)%nat then backslash ++ "r"
  else if (n =? 9)%nat then backslash ++ "t"
  else if (n <? 32)%nat then
    backslash ++ "u00"
    ++ String (hex_digit (n / 16))
              (String (hex_digit (n mod 16)) EmptyString)
  else String c EmptyString.

Fixpoint escape_units (s : string) : string :=
  match s with
  | EmptyString => EmptyString
  | String c rest => escape_unit c ++ escape_units rest
  end.

Definition QuoteJSONString (s : string) : string :=
  dquote ++ escape_units s ++ dquote.

Definition gap : string := "  ".

(** A number that is not finite is written [null]. *)
Definition number_text (lit : string) : string :=
  if (lit =? "NaN") || (lit =? "Infinity") || (lit =? "-Infinity")
  then "null" else lit.

(** [SerializeJSONProperty] with the gap of two spaces; [indent] is the
    current indentation.  [None] is the [undefined] that an [undefined]
    value serializes to: an object leaves such a member out, an array
    writes [null] for it. *)
Fixpoint SerializeJSONProperty (indent : string) (v : value) {struct v}
  : option string :=
  match v with
  | VUndefined => None
  | VNull => Some "null"
  | VBool b => Some (if b then "true" else "false")
  | VNumber lit => Some (number_text lit)
  | VString s => Some (QuoteJSONString s)
  | VArray xs =>
      let inner := indent ++ gap in
      let partial :=
        (fix elements (l : list value) : list string :=
           match l with
           | [] => []
           | x :: rest =>
               match SerializeJSONProperty inner x with
               | Some s => s
               | None => "null"
               end :: elements rest
           end) xs in
      Some (match partial with
            | [] => "[]"
            | _ => "[" ++ nl ++ inner
                   ++ String.concat ("," ++ nl ++ inner) partial
                   ++ nl ++ indent ++ "]"
            end)
  | VObject ps =>
      let inner := indent ++ gap in
      let partial :=
        (fix members (l : list (string * value)) : list string :=
           match l with
           | [] => []
           | (k, x) :: rest =>
               match SerializeJSONProperty inner x with
               | Some s => (QuoteJSONString k ++ ": " ++ s) :: members rest
               | None => members rest
               end
           end) ps in
      Some (match partial with
            | [] => "{}"
            | _ => "{" ++ nl ++ inner
                   ++ String.concat ("," ++ nl ++ inner) partial
                   ++ nl ++ indent ++ "}"
            end)
  end.

Definition JSON_stringify (v : value) : option string :=
  SerializeJSONProperty EmptyString v.

(** ** URLs and their search parameters *)

Definition params := list (string * string).

Fixpoint params_get (k : string) (ps : params) : option string :=
  match ps with
  | [] => None
  | (k', v) :: rest => if (k' =? k)%string then Some v else params_get k rest
  end.


Fixpoint params_delete (k : string) (ps : params) : params :=
  match ps with
  | [] => []
  | (k', v) :: rest =>
      if (k' =? k)%string then params_delete k rest
      else (k', v) :: params_delete k rest
  end.

(** [URLSearchParams.prototype.set]: the first pair named [k] takes the
    value and the other pairs named [k] go; without such a pair, a new one
    is appended. *)
Fixpoint params_set (k v : string) (ps : params) : params :=
  match ps with
  | [] => [(k, v)]
  | (k', v') :: rest =>
      if (k' =? k)%string then (k, v) :: params_delete k rest
      else (k', v') :: params_set k v rest
  end.

(** A parsed URL: its serialization up to the query, the query as a list
    of pairs, and the fragment (with its [#], or empty). *)
Record URL : Type := {
  prefix : string;
  searchParams : params;
  hash : string
}.

Definition searchParams_set (u : URL) (k v : string) : URL :=
  {| prefix := prefix u;
     searchParams := params_set k v (searchParams u);
     hash := hash u |}.

Definition upper_hex_digit (n : nat) : ascii :=
  ascii_of_nat (if (n <? 10)%nat then 48 + n else 55 + n).

Definition percent (byte : nat) : string :=
  String "%" (String (upper_hex_digit (byte / 16))
                     (String (upper_hex_digit (byte mod 16)) EmptyString)).

(** The bytes the [application/x-www-form-urlencoded] serializer leaves as
    they are: ASCII letters and digits, and [* - . _]. *)
Definition urlencoded_safe (n : nat) : bool :=
  ((48 <=? n) && (n <=? 57) || (65 <=? n) && (n <=? 90)
   || (97 <=? n) && (n <=? 122)
   || (n =? 42) || (n =? 45) || (n =? 46) || (n =? 95))%nat.

(** One code unit, UTF-8 encoded and then percent-encoded; a space is
    written [+]. *)
Definition urlencode_unit (c : ascii) : string :=
  let n := nat_of_ascii c in
  if (n =? 32)%nat then "+"
  else if urlencoded_safe n then String c EmptyString
  else if (n <? 128)%nat then percent n
  else percent (192 + n / 64) ++ percent (128 + n mod 64).

Fixpoint urlencode (s : string) : string :=
  match s with
  | EmptyString => EmptyString
  | String c rest => urlencode_unit c ++ urlencode rest
  end.

Definition serialize_params (ps : params) : string :=
  String.concat "&"
    (map (fun kv => urlencode (fst kv) ++ "=" ++ urlencode (snd kv)) ps).

(** [URL.prototype.toString]. *)
Definition URL_toString (u : URL) : string :=
  prefix u
  ++ (match searchParams u with
      | [] => EmptyString
      | ps => "?" ++ serialize_params ps
      end)
  ++ hash u.

(** ** The network *)

Record Request : Type := {
  request_url : string;
  method : string;
  headers : list (string * string)
}.

Module Response.
(** What [fetch] resolves to: the status, and what the [text()] and
    [json()] promises settle to. *)
Record t : Type := {
  status : N;
  text : Result string;
  json : Result value
}.

(** node-fetch: [ok] holds for the statuses 200..299. *)
Definition ok (r : t) : bool :=
  ((200 <=? status r) && (status r <? 300))%N.
End Response.

(** ** Tool responses *)

Record ContentItem : Type := {
  type : string;
  text : option string
}.

Record ToolResponse : Type := {
  content : list ContentItem;
  isError : option bool
}.

(** [process.env]. *)
Record Env : Type := {
  TX_SERVER : option string
}.

(** [process.env.TX_SERVER ?? "https://tx.ontoserver.csiro.au/fhir"]. *)
Definition serverBase (env : Env) : string :=
  match TX_SERVER env with
  | Some s => s
  | None => "https://tx.ontoserver.csiro.au/fhir"
  end.

Module Lookup.
Record args : Type := {
  filter : string;
  url : string
}.
End Lookup.

Module Validate.
Record args : Type := {
  system : string;
  code : string;
  url : string;
  version : option string
}.
End Validate.

(** [if (version)]: a version that is given and not empty. *)
Definition version_given (version : option string) : option string :=
  match version with
  | Some v => if (v =? EmptyString)%string then None else Some v
  | None => None
  end.

Definition GET (url : string) : Request :=
  {| request_url := url;
     method := "GET";
     headers := [("Accept", "application/fhir+json")] |}.

Definition server_error (response : Response.t) (errorText : string)
  : ToolResponse :=
  {| content :=
       [ {| type := "text";
            text := Some ("Terminology server error ("
                          ++ decimal (Response.status response)
                          ++ "): " ++ errorText) |} ];
     isError := Some true |}.

Definition caught (what : string) (error : exn) : ToolResponse :=
  {| content :=
       [ {| type := "text";
            text := Some (what ++ error_text error) |} ];
     isError := Some true |}.

Definition plain (t : option string) : ToolResponse :=
  {| content := [ {| type := "text"; text := t |} ];
     isError := None |}.

(** ** The handlers *)

(** [result.expansion?.contains?.length]. *)
Definition expansion_contains_length (result : value) : Result value :=
  expansion <- get_prop result "expansion" ;;
  contains <- opt_get expansion "contains" ;;
  opt_get contains "length".

(** [result.expansion.contains[0]]. *)
Definition first_match (result : value) : Result value :=
  expansion <- get_prop result "expansion" ;;
  contains <- get_prop expansion "contains" ;;
  get_index contains 0.

(** What the lookup handler does with the parsed body of a successful
    response. *)
Definition lookup_result (result : value) : Result ToolResponse :=
  len <- expansion_contains_length result ;;
  if negb (truthy len) then Ok (plain (Some "No matching codes found"))
  else
    firstMatch <- first_match result ;;
    Ok (plain (JSON_stringify firstMatch)).

(** [result.parameter?.find((p) => p.name === name)]. *)
Definition find_parameter (result : value) (name : string) : Result value :=
  parameter <- get_prop result "parameter" ;;
  opt_call_find "result.parameter?.find" parameter
    (fun p => n <- get_prop p "name" ;; Ok (strict_eq_string n name)).

(** The [validationResult] object of the validation handler. *)
Definition validationResult (a : Validate.args) (result : value)
  : Result value :=
  resultParam <- find_parameter result "result" ;;
  displayParam <- find_parameter result "display" ;;
  codeParam <- find_parameter result "code" ;;
  systemParam <- find_parameter result "system" ;;
  versionParam <- find_parameter result "version" ;;
  valid <- opt_get resultParam "valueBoolean" ;;
  code <- opt_get codeParam "valueCode" ;;
  system <- opt_get systemParam "valueUri" ;;
  version <- opt_get versionParam "valueString" ;;
  display <- opt_get displayParam "valueString" ;;
  Ok (VObject [ ("valid", coalesce valid (VBool false));
                ("code", coalesce code (VString (Validate.code a)));
                ("system", coalesce system (VString (Validate.system a)));
                ("version", version);
                ("display", display) ]).

Definition validate_result (a : Validate.args) (result : value)
  : Result ToolResponse :=
  v <- validationResult a result ;;
  Ok (plain (JSON_stringify v)).

(** The URL the lookup handler requests, from the freshly built one. *)
Definition expandUrl (u : URL) (a : Lookup.args) : URL :=
  let u := searchParams_set u "url" (Lookup.url a) in
  searchParams_set u "filter" (Lookup.filter a).

(** The URL the validation handler requests, from the freshly built one. *)
Definition validateUrl (u : URL) (a : Validate.args) : URL :=
  let u := searchParams_set u "url" (Validate.url a) in
  let u := searchParams_set u "system" (Validate.system a) in
  let u := searchParams_set u "code" (Validate.code a) in
  match version_given (Validate.version a) with
  | Some v => searchParams_set u "version" v
  | None => u
  end.

Section Handlers.

(** The URL constructor, which throws on a string that is no absolute
    URL, and the network.  Both are outside the repository. *)
Variable new_URL : string -> Result URL.
Variable fetch : Request -> Result Response.t.
Variable env : Env.

(** The body of the [try] block of the lookup handler. *)
Definition lookup_try (u : URL) : Result ToolResponse :=
  response <- fetch (GET (URL_toString u)) ;;
  if negb (Response.ok response) then
    errorText <- Response.text response ;;
    Ok (server_error response errorText)
  else
    result <- Response.json response ;;
    lookup_result result.

(** The handler of [lookup-code].  [Throw] is an exception that leaves
    the handler: the URL is built before the [try] block. *)
Definition lookup_code (a : Lookup.args) : Result ToolResponse :=
  u <- new_URL (serverBase env ++ "/ValueSet/$expand") ;;
  Ok (try_catch (lookup_try (expandUrl u a))
                (caught "Error looking up codes: ")).

(** The body of the [try] block of the validation handler. *)
Definition validate_try (a : Validate.args) (u : URL)
  : Result ToolResponse :=
  response <- fetch (GET (URL_toString u)) ;;
  if negb (Response.ok response) then
    errorText <- Response.text response ;;
    Ok (server_error response errorText)
  else
    result <- Response.json response ;;
    validate_result a result.

(** The handler of [validate-code]. *)
Definition validate_code (a : Validate.args) : Result ToolResponse :=
  u <- new_URL (serverBase env ++ "/ValueSet/$validate-code") ;;
  Ok (try_catch (validate_try a (validateUrl u a))
                (caught "Error validating code: ")).

End Handlers.

(** ** The declared input schemas *)

(** The zod schemas the tools declare: [z.string()], possibly
    [.optional()]; [.describe(...)] only attaches documentation. *)
Inductive ZodType : Type :=
| ZString
| ZOptional (inner : ZodType).

Fixpoint zod_accepts (t : ZodType) (v : value) : bool :=
  match t with
  | ZString => match v with VString _ => true | _ => false end
  | ZOptional inner =>
      match v with
      | VUndefined => true
      | _ => zod_accepts inner v
      end
  end.

Definition lookup_schema : list (string * ZodType) :=
  [ ("filter", ZString); ("url", ZString) ].

Definition validate_schema : list (string * ZodType) :=
  [ ("system", ZString); ("code", ZString); ("url", ZString);
    ("version", ZOptional ZString) ].

(** An invocation's arguments pass a schema when every declared field
    does; a field that is missing reads as [undefined]. *)
Definition schema_accepts (schema : list (string * ZodType))
                          (raw : list (string * value)) : bool :=
  forallb (fun kt => zod_accepts (snd kt) (field (fst kt) raw)) schema.

(** [z.object(shape)] parsing an invocation's arguments: when every
    declared field passes, the object of the declared fields, as given;
    keys that are not declared are dropped. *)
Definition zod_parse_object (shape : list (string * ZodType))
                            (raw : list (string * value))
  : option (list (string * value)) :=
  if schema_accepts shape raw
  then Some (map (fun kt => (fst kt, field (fst kt) raw)) shape)
  else None.

(** A parsed field the schema types as a string, as the handler's
    parameter of type [string]. *)
Definition string_of (v : value) : string :=
  match v with
  | VString s => s
  | _ => EmptyString
  end.

(** A parsed field the schema types as an optional string. *)
Definition optional_string_of (v : value) : option string :=
  match v with
  | VString s => Some s
  | _ => None
  end.

(** The arguments the lookup handler is called with, [{ filter, url }] of
    the parsed object, or [None] when the schema rejects the invocation
    and the handler does not run. *)
Definition parse_lookup_args (raw : list (string * value))
  : option Lookup.args :=
  match zod_parse_object lookup_schema raw with
  | Some parsed =>
      Some {| Lookup.filter := string_of (field "filter" parsed);
              Lookup.url := string_of (field "url" parsed) |}
  | None => None
  end.

(** ** Invocations *)

(** An invocation of one of the two registered tools, with the arguments
    its handler receives. *)
Inductive invocation : Type :=
| LookupCode (a : Lookup.args)
| ValidateCode (a : Validate.args).

Definition tool_name (t : invocation) : string :=
  match t with
  | LookupCode _ => "lookup-code"
  | ValidateCode _ => "validate-code"
  end.

(** The string the handler gives to the URL constructor. *)
Definition endpoint (env : Env) (t : invocation) : string :=
  match t with
  | LookupCode _ => serverBase env ++ "/ValueSet/$expand"
  | ValidateCode _ => serverBase env ++ "/ValueSet/$validate-code"
  end.

(** The request the handler gives to [fetch], from the URL just built. *)
Definition outbound (t : invocation) (u : URL) : Request :=
  match t with
  | LookupCode a => GET (URL_toString (expandUrl u a))
  | ValidateCode a => GET (URL_toString (validateUrl u a))
  end.

(** What the handler does with the parsed body of a successful response. *)
Definition on_success (t : invocation) : value -> Result ToolResponse :=
  match t with
  | LookupCode _ => lookup_result
  | ValidateCode a => validate_result a
  end.

Definition catch_prefix (t : invocation) : string :=
  match t with
  | LookupCode _ => "Error looking up codes: "
  | ValidateCode _ => "Error validating code: "
  end.

(** The registry calling the handler registered under the tool's name. *)
Definition call (new_URL : string -> Result URL)
                (fetch : Request -> Result Response.t) (env : Env)
                (t : invocation) : Result ToolResponse :=
  match t with
  | LookupCode a => lookup_code new_URL fetch env a
  | ValidateCode a => validate_code new_URL fetch env a
  end.

(** ** Reading a response body as the type the handler casts it to *)

(** The match list of a [ValueSet] body: [expansion.contains] when it is
    an array, absent when [expansion] or [contains] is missing or null.
    Any other body is not a [ValueSet]. *)
Inductive MatchList : Type :=
| Absent
| Matches (codings : list value)
| NotAValueSet.

Definition match_list (result : value) : MatchList :=
  match result with
  | VObject ps =>
      match field "expansion" ps with
      | VUndefined | VNull => Absent
      | VObject es =>
          match field "contains" es with
          | VUndefined | VNull => Absent
          | VArray xs => Matches xs
          | _ => NotAValueSet
          end
      | _ => NotAValueSet
      end
  | _ => NotAValueSet
  end.

(** The parameter list of a [Parameters] body: [parameter] when it is an
    array, the empty list when it is missing or null. *)
Definition parameter_list (result : value) : option (list value) :=
  match result with
  | VObject ps =>
      match field "parameter" ps with
      | VUndefined | VNull => Some []
      | VArray xs => Some xs
      | _ => None
      end
  | _ => None
  end.

(** A value that [JSON.parse] can give: no [undefined] inside, and only
    finite numbers. *)
Fixpoint is_json (v : value) : bool :=
  match v with
  | VUndefined => false
  | VNull | VBool _ | VString _ => true
  | VNumber lit =>
      negb ((lit =? "NaN") || (lit =? "Infinity") || (lit =? "-Infinity"))
  | VArray xs => forallb is_json xs
  | VObject ps => forallb (fun kv => is_json (snd kv)) ps
  end.

(** ** The validation result, as the specification words it *)

(** [p] is a parameter named [name]. *)
Definition has_name (name : string) (p : value) : bool :=
  match p with
  | VObject ps => strict_eq_string (field "name" ps) name
  | _ => false
  end.

(** The first parameter of the list that is named [name]. *)
Definition parameter_named (name : string) (xs : list value) : option value :=
  List.find (has_name name) xs.

(** The part [key] of a parameter, [undefined] without one. *)
Definition part (key : string) (p : option value) : value :=
  match p with
  | Some (VObject ps) => field key ps
  | _ => VUndefined
  end.

(** [valid], [code], [system], [version] and [display] by name, with the
    defaults for [valid], [code] and [system]; the input version is no
    argument of it. *)
Definition expected_validation (code system : string) (xs : list value)
  : value :=
  VObject
    [ ("valid",
       coalesce (part "valueBoolean" (parameter_named "result" xs))
                (VBool false));
      ("code",
       coalesce (part "valueCode" (parameter_named "code" xs))
                (VString code));
      ("system",
       coalesce (part "valueUri" (parameter_named "system" xs))
                (VString system));
      ("version", part "valueString" (parameter_named "version" xs));
      ("display", part "valueString" (parameter_named "display" xs)) ].

(** The uniform envelope: one content item of type text with a string. *)
Definition text_envelope (r : ToolResponse) : Prop :=
  exists s, content r = [ {| type := "text"; text := Some s |} ].

(** ** Exceptions of the try block *)

(** An exception thrown during the outbound call or while the response is
    read: by [fetch], by [text()] on a failed response, by [json()] on a
    successful one, or by the reads of the parsed body. *)
Inductive raised (fetch : Request -> Result Response.t)
                 (after : value -> Result ToolResponse) (req : Request)
  : exn -> Prop :=
| raised_by_fetch e :
    fetch req = Throw e -> raised fetch after req e
| raised_by_text response e :
    fetch req = Ok response -> Response.ok response = false ->
    Response.text response = Throw e -> raised fetch after req e
| raised_by_json response e :
    fetch req = Ok response -> Response.ok response = true ->
    Response.json response = Throw e -> raised fetch after req e
| raised_by_read response result e :
    fetch req = Ok response -> Response.ok response = true ->
    Response.json response = Ok result -> after result = Throw e ->
    raised fetch after req e.


(** The try block of either handler. *)
Definition attempt (fetch : Request -> Result Response.t) (t : invocation)
                   (u : URL) : Result ToolResponse :=
  response <- fetch (outbound t u) ;;
  if negb (Response.ok response) then
    errorText <- Response.text response ;;
    Ok (server_error response errorText)
  else
    result <- Response.json response ;;
    on_success t result.

(** [expansion.contains] of a body, [undefined] without one. *)
Definition contains_of (result : value) : value :=
  match result with
  | VObject ps =>
      match field "expansion" ps with
      | VObject es => field "contains" es
      | _ => VUndefined
      end
  | _ => VUndefined
  end.

Definition is_object (v : value) : bool :=
  match v with
  | VObject _ => true
  | _ => false
  end.

(** A parameter that is neither [null] nor [undefined]. *)
Definition non_null (p : value) : Prop := nullish p = false.

(** [undefined] for no parameter. *)
Definition or_undefined (p : option value) : value :=
  match p with
  | Some v => v
  | None => VUndefined
  end.

(** One step of a computation that has returned. *)
Ltac bind_returned :=
  match goal with
  | |- bind ?c _ = Ok _ -> _ =>
      let e := fresh "e" in
      destruct c as [?|e]; cbn [bind]; [|discriminate]
  end.

(** ** More of the input schemas *)

(** The arguments the validation handler is called with,
    [{ system, code, url, version }] of the parsed object, or [None] when
    the schema rejects the invocation. *)
Definition parse_validate_args (raw : list (string * value))
  : option Validate.args :=
  match zod_parse_object validate_schema raw with
  | Some parsed =>
      Some {| Validate.system := string_of (field "system" parsed);
              Validate.code := string_of (field "code" parsed);
              Validate.url := string_of (field "url" parsed);
              Validate.version :=
                optional_string_of (field "version" parsed) |}
  | None => None
  end.

(** ** Measures on search parameters and strings *)

(** How many pairs of a parameter list are named [k]. *)
Definition count_key (k : string) (ps : params) : nat :=
  List.length (List.filter (fun kv => (fst kv =? k)%string) ps).

Fixpoint string_forall (f : ascii -> bool) (s : string) : bool :=
  match s with
  | EmptyString => true
  | String c rest => f c && string_forall f rest
  end.

Definition is_digit (c : ascii) : bool :=
  let n := nat_of_ascii c in ((48 <=? n) && (n <=? 57))%nat.

(** ** The searches of the validation handler *)

(** The names the validation handler searches the parameter list for, in
    the order of the searches. *)
Definition searched_names : list string :=
  [ "result"; "display"; "code"; "system"; "version" ].

(** The search for [name] comes to an entry that is [null] or
    [undefined] before it finds a parameter of that name. *)
Fixpoint reaches_null (name : string) (xs : list value) : bool :=
  match xs with
  | [] => false
  | x :: rest =>
      if nullish x then true
      else if has_name name x then false
      else reaches_null name rest
  end.

(** ** The SSE endpoint *)

(** [fhir-tools/src/sse.ts]: an express application with two routes that
    share the variable [transport]. *)
Module Sse.

(** [process.env], as far as the file reads it. *)
Record Env : Type := {
  PORT : option string;
  BASE_PATH : option string
}.

(** [process.env.PORT ?? 3003]. *)
Definition appPort (env : Env) : value :=
  match PORT env with
  | Some p => VString p
  | None => VNumber "3003"
  end.

(** [process.env.BASE_PATH ?? ""]. *)
Definition basePath (env : Env) : string :=
  match BASE_PATH env with
  | Some p => p
  | None => EmptyString
  end.

(** [new SSEServerTransport(path, res)]: the path clients are told to post
    to, and the response stream of the connection, by its number. *)
Record SSEServerTransport : Type := {
  post_path : string;
  res : nat
}.

(** What a route handler does to the outside, in order. *)
Inductive effect : Type :=
| Info (message : string)
| Debug (message : string) (req : nat)
| Connect (t : SSEServerTransport)
| HandlePostMessage (t : SSEServerTransport) (req res : nat).

(** A route handler that has run: the variable [transport] after it, its
    effects, and whether its promise fulfilled or rejected. *)
Record served : Type := {
  transport : option SSEServerTransport;
  effects : list effect;
  outcome : Result unit
}.

Inductive request : Type :=
| GetSse (res : nat)
| PostMessages (req res : nat).

Section Routes.

(** [server.connect] and [transport.handlePostMessage], of the SDK. *)
Variable connect : SSEServerTransport -> Result unit.
Variable handlePostMessage : SSEServerTransport -> nat -> nat -> Result unit.
Variable env : Env.

(** [app.get("/sse", ...)]. *)
Definition get_sse (current : option SSEServerTransport) (res : nat)
  : served :=
  let t := {| post_path := basePath env ++ "/messages"; res := res |} in
  match connect t with
  | Ok _ =>
      {| transport := Some t;
         effects := [ Info "Received SSE connection request"; Connect t;
                      Info "SSE transport connected" ];
         outcome := Ok tt |}
  | Throw e =>
      {| transport := Some t;
         effects := [ Info "Received SSE connection request"; Connect t ];
         outcome := Throw e |}
  end.

(** [app.post("/messages", ...)]; [None] is the variable before its first
    assignment. *)
Definition post_messages (current : option SSEServerTransport)
                         (req res : nat) : served :=
  match current with
  | None =>
      {| transport := current;
         effects := [ Debug "Received message" req ];
         outcome := Throw (cannot_read VUndefined "handlePostMessage") |}
  | Some t =>
      {| transport := current;
         effects := [ Debug "Received message" req;
                      HandlePostMessage t req res ];
         outcome := handlePostMessage t req res |}
  end.

Definition route (current : option SSEServerTransport) (r : request)
  : served :=
  match r with
  | GetSse res => get_sse current res
  | PostMessages req res => post_messages current req res
  end.

(** The requests of a run, routed in the order they arrive; the variable
    is read and written before a handler first awaits. *)
Fixpoint serve (current : option SSEServerTransport) (rs : list request)
  : option SSEServerTransport * list effect :=
  match rs with
  | [] => (current, [])
  | r :: rest =>
      let s := route current r in
      let (final, later) := serve (transport s) rest in
      (final, (effects s ++ later)%list)
  end.

End Routes.

(** The connection of the last [GET /sse] of a run. *)
Fixpoint last_connection (rs : list request) : option nat :=
  match rs with
  | [] => None
  | GetSse res :: rest =>
      match last_connection rest with
      | Some later => Some later
      | None => Some res
      end
  | PostMessages _ _ :: rest => last_connection rest
  end.

End Sse.

(** ** Scenarios of the test suite *)

Module Scenario.

(** A stand-in for the URL constructor: an absolute http(s) URL without
    query or fragment parses to itself with no search parameters, as the
    endpoints of the default base do. *)
Definition new_URL (s : string) : Result URL :=
  if String.prefix "http" s
  then Ok {| prefix := s; searchParams := []; hash := EmptyString |}
  else Throw (ErrorObj "Invalid URL").

Definition env : Env := {| TX_SERVER := None |}.

Definition resolves (status : N) (body : value) : Response.t :=
  {| Response.status := status;
     Response.text := Ok EmptyString;
     Response.json := Ok body |}.

Definition fails (status : N) (body : string) : Response.t :=
  {| Response.status := status;
     Response.text := Ok body;
     Response.json := Throw (ErrorObj "Unexpected token") |}.

Definition hypertension : Lookup.args :=
  {| Lookup.filter := "hypertension";
     Lookup.url := "http://snomed.info/sct?fhir_vs" |}.

Definition skull_fracture : Validate.args :=
  {| Validate.system := "http://snomed.info/sct";
     Validate.code := "30371007";
     Validate.url := "http://snomed.info/sct?fhir_vs";
     Validate.version := None |}.

Definition expansion (contains : value) : value :=
  VObject [ ("expansion", VObject [ ("contains", contains) ]) ].

Definition firstMatch : value :=
  VObject [ ("code", VString "12345"); ("display", VString "Test Code") ].

Definition secondMatch : value :=
  VObject [ ("code", VString "67890") ].

Definition parameters (xs : list value) : value :=
  VObject [ ("resourceType", VString "Parameters");
            ("parameter", VArray xs) ].

Definition valid_parameters : list value :=
  [ VObject [ ("name", VString "result"); ("valueBoolean", VBool true) ];
    VObject [ ("name", VString "code"); ("valueCode", VString "30371007") ];
    VObject [ ("name", VString "system");
              ("valueUri", VString "http://snomed.info/sct") ];
    VObject [ ("name", VString "display");
              ("valueString", VString "Open fracture of base of skull") ] ].

(** A network that answers every request alike. *)
Definition always (r : Result Response.t) : Request -> Result Response.t :=
  fun _ => r.

End Scenario.

(** ** The test suite, run on the model *)

Example test_lookup_empty_expansion :
  lookup_code Scenario.new_URL
    (Scenario.always
       (Ok (Scenario.resolves 200 (Scenario.expansion (VArray [])))))
    Scenario.env Scenario.hypertension
  = Ok (plain (Some "No matching codes found")).
Proof. reflexivity. Qed.

Example test_lookup_first_match :
  lookup_code Scenario.new_URL
    (Scenario.always
       (Ok (Scenario.resolves 200
              (Scenario.expansion (VArray [Scenario.firstMatch])))))
    Scenario.env Scenario.hypertension
  = Ok (plain (Some ("{" ++ nl
                     ++ "  " ++ dquote ++ "code" ++ dquote ++ ": "
                     ++ dquote ++ "12345" ++ dquote ++ "," ++ nl
                     ++ "  " ++ dquote ++ "display" ++ dquote ++ ": "
                     ++ dquote ++ "Test Code" ++ dquote ++ nl
                     ++ "}"))).
Proof. reflexivity. Qed.

Example test_lookup_not_ok :
  lookup_code Scenario.new_URL
    (Scenario.always (Ok (Scenario.fails 500 "Server Error")))
    Scenario.env Scenario.hypertension
  = Ok {| content :=
            [ {| type := "text";
                 text := Some "Terminology server error (500): Server Error" |} ];
          isError := Some true |}.
Proof. reflexivity. Qed.

Example test_validate_invalid_code :
  validate_code Scenario.new_URL
    (Scenario.always
       (Ok (Scenario.resolves 200
              (Scenario.parameters
                 [ VObject [ ("name", VString "result");
                             ("valueBoolean", VBool false) ] ]))))
    Scenario.env Scenario.skull_fracture
  = Ok (plain (Some ("{" ++ nl
                     ++ "  " ++ dquote ++ "valid" ++ dquote ++ ": false,"
                     ++ nl
                     ++ "  " ++ dquote ++ "code" ++ dquote ++ ": "
                     ++ dquote ++ "30371007" ++ dquote ++ "," ++ nl
                     ++ "  " ++ dquote ++ "system" ++ dquote ++ ": "
                     ++ dquote ++ "http://snomed.info/sct" ++ dquote ++ nl
                     ++ "}"))).
Proof. reflexivity. Qed.

Example test_validate_not_ok :
  validate_code Scenario.new_URL
    (Scenario.always (Ok (Scenario.fails 404 "ValueSet not found")))
    Scenario.env Scenario.skull_fracture
  = Ok {| content :=
            [ {| type := "text";
                 text := Some "Terminology server error (404): ValueSet not found" |} ];
          isError := Some true |}.
Proof. reflexivity. Qed.

(** A body that is [null] is read inside the try block. *)
Example null_body_is_caught :
  lookup_code Scenario.new_URL
    (Scenario.always (Ok (Scenario.resolves 200 VNull)))
    Scenario.env Scenario.hypertension
  = Ok {| content :=
            [ {| type := "text";
                 text := Some "Error looking up codes: Cannot read properties of null (reading 'expansion')" |} ];
          isError := Some true |}.
Proof. reflexivity. Qed.

(** The schema of validate-code leaves [version] optional. *)
Example validate_schema_without_version :
  schema_accepts validate_schema
    [ ("system", VString "http://loinc.org"); ("code", VString "72133-2");
      ("url", VString "http://loinc.org/vs") ] = true.
Proof. reflexivity. Qed.

(** ** Facts on numbers and lengths *)

Lemma to_uint_not_nil (n : N) : N.to_uint n <> Nil.
Proof.
  destruct n as [|p]; simpl.
  - discriminate.
  - apply DecimalPos.Unsigned.to_uint_nonnil.
Qed.

Lemma decimal_inj (n m : N) : decimal n = decimal m -> n = m.
Proof.
  unfold decimal. intros E.
  apply DecimalN.Unsigned.to_uint_inj.
  pose proof (NilZero.usu _ (to_uint_not_nil n)) as Hn.
  pose proof (NilZero.usu _ (to_uint_not_nil m)) as Hm.
  rewrite E in Hn. congruence.
Qed.

Lemma decimal_not_NaN (n : N) : decimal n <> "NaN".
Proof.
  unfold decimal. intros E.
  pose proof (NilZero.usu _ (to_uint_not_nil n)) as Hn.
  rewrite E in Hn. discriminate Hn.
Qed.

(** A length is falsy exactly when it is zero. *)
Lemma truthy_length (n : nat) :
  truthy (number_of_nat n) = negb (n =? 0)%nat.
Proof.
  unfold number_of_nat, truthy.
  destruct (String.eqb_spec (decimal (N.of_nat n)) "NaN") as [E|_].
  - now apply decimal_not_NaN in E.
  - rewrite orb_false_r.
    destruct (String.eqb_spec (decimal (N.of_nat n)) "0") as [E|NE].
    + change "0" with (decimal 0) in E. apply decimal_inj in E.
      destruct n; [reflexivity | lia].
    + destruct n; [now elim NE | reflexivity].
Qed.

(** ** Facts on the reads of a value-set body *)

Lemma length_of_absent (result : value) :
  match_list result = Absent ->
  expansion_contains_length result = Ok VUndefined.
Proof.
  unfold match_list, expansion_contains_length.
  destruct result as [| | | | | |ps]; try discriminate.
  simpl. destruct (field "expansion" ps) as [| | | | | |es];
    try discriminate; try reflexivity.
  simpl. destruct (field "contains" es); try discriminate; reflexivity.
Qed.

Lemma length_of_matches (result : value) (xs : list value) :
  match_list result = Matches xs ->
  expansion_contains_length result = Ok (number_of_nat (List.length xs)).
Proof.
  unfold match_list, expansion_contains_length.
  destruct result as [| | | | | |ps]; try discriminate.
  simpl. destruct (field "expansion" ps) as [| | | | | |es];
    try discriminate.
  simpl. destruct (field "contains" es); try discriminate.
  intros [= ->]. reflexivity.
Qed.

Lemma first_of_matches (result : value) (xs : list value) :
  match_list result = Matches xs ->
  first_match result = Ok (nth 0 xs VUndefined).
Proof.
  unfold match_list, first_match.
  destruct result as [| | | | | |ps]; try discriminate.
  simpl. destruct (field "expansion" ps) as [| | | | | |es];
    try discriminate.
  simpl. destruct (field "contains" es); try discriminate.
  intros [= ->]. reflexivity.
Qed.

Lemma lookup_result_no_match (result : value) :
  match_list result = Absent \/ match_list result = Matches [] ->
  lookup_result result = Ok (plain (Some "No matching codes found")).
Proof.
  unfold lookup_result. intros [H|H].
  - rewrite (length_of_absent _ H). reflexivity.
  - rewrite (length_of_matches _ _ H). reflexivity.
Qed.

Lemma lookup_result_first (result x : value) (rest : list value) :
  match_list result = Matches (x :: rest) ->
  lookup_result result = Ok (plain (JSON_stringify x)).
Proof.
  unfold lookup_result. intros H.
  rewrite (length_of_matches _ _ H). cbn [bind].
  rewrite truthy_length. cbn [List.length Nat.eqb negb].
  rewrite (first_of_matches _ _ H). reflexivity.
Qed.

(** Only [undefined] has no JSON text. *)
Lemma stringify_defined (v : value) :
  v <> VUndefined -> exists s, JSON_stringify v = Some s.
Proof.
  unfold JSON_stringify. destruct v; simpl; intros H;
    try (eexists; reflexivity).
  now elim H.
Qed.

(** ** Facts on the handlers *)

Section HandlerFacts.

Variable new_URL : string -> Result URL.
Variable fetch : Request -> Result Response.t.
Variable env : Env.

(** Once the URL is built, the handler returns what its try block
    gives, or the caught exception's envelope. *)
Lemma call_built (t : invocation) (u : URL) :
  new_URL (endpoint env t) = Ok u ->
  call new_URL fetch env t
  = Ok (try_catch (attempt fetch t u) (caught (catch_prefix t))).
Proof.
  intros H. destruct t; simpl in *;
    unfold lookup_code, validate_code; rewrite H; reflexivity.
Qed.

(** A response that came back successful and parsed. *)
Lemma attempt_success (t : invocation) (u : URL)
      (response : Response.t) (result : value) :
  fetch (outbound t u) = Ok response ->
  Response.ok response = true ->
  Response.json response = Ok result ->
  attempt fetch t u = on_success t result.
Proof.
  intros Hf Hok Hj. unfold attempt. rewrite Hf. simpl.
  rewrite Hok. simpl. rewrite Hj. reflexivity.
Qed.

Lemma attempt_raised (t : invocation) (u : URL) (e : exn) :
  attempt fetch t u = Throw e <->
  raised fetch (on_success t) (outbound t u) e.
Proof.
  unfold attempt. split.
  - destruct (fetch (outbound t u)) as [response|e0] eqn:Hf; simpl.
    + destruct (Response.ok response) eqn:Hok; simpl.
      * destruct (Response.json response) as [result|e1] eqn:Hj; simpl.
        -- intros H. eapply raised_by_read; eauto.
        -- intros [= ->]. eapply raised_by_json; eauto.
      * destruct (Response.text response) as [body|e1] eqn:Ht; simpl.
        -- discriminate.
        -- intros [= ->]. eapply raised_by_text; eauto.
    + intros [= ->]. now apply raised_by_fetch.
  - intros [e' Hf|response e' Hf Hok Ht|response e' Hf Hok Hj
           |response result e' Hf Hok Hj Hr]; rewrite Hf; simpl.
    + reflexivity.
    + rewrite Hok. simpl. rewrite Ht. reflexivity.
    + rewrite Hok. simpl. rewrite Hj. reflexivity.
    + rewrite Hok. simpl. rewrite Hj. simpl. exact Hr.
Qed.

Lemma on_success_plain (t : invocation) (result : value)
      (r : ToolResponse) :
  on_success t result = Ok r -> exists s, r = plain s.
Proof.
  destruct t; simpl.
  - unfold lookup_result.
    destruct (expansion_contains_length result) as [len|]; simpl;
      [|discriminate].
    destruct (truthy len); simpl.
    + destruct (first_match result); simpl; [|discriminate].
      intros [= <-]. eexists; reflexivity.
    + intros [= <-]. eexists; reflexivity.
  - unfold validate_result.
    destruct (validationResult a result); simpl; [|discriminate].
    intros [= <-]. eexists; reflexivity.
Qed.

End HandlerFacts.

(** ** The lookup handler on a successful response *)

(** C3. A successful lookup whose match list is not empty answers with the
    pretty-printed JSON of the first element of the list alone, whatever
    the rest of the list is, and sets no error flag; the text is a string
    as soon as that first element is not [undefined]. *)
Theorem lookup_returns_first_match
    (new_URL : string -> Result URL) (fetch : Request -> Result Response.t)
    (env : Env) (a : Lookup.args) (u : URL) (response : Response.t)
    (result x : value) (rest : list value) :
  new_URL (serverBase env ++ "/ValueSet/$expand") = Ok u ->
  fetch (GET (URL_toString (expandUrl u a))) = Ok response ->
  Response.ok response = true ->
  Response.json response = Ok result ->
  match_list result = Matches (x :: rest) ->
  lookup_code new_URL fetch env a
  = Ok {| content := [ {| type := "text"; text := JSON_stringify x |} ];
          isError := None |}
  /\ (x <> VUndefined -> exists s, JSON_stringify x = Some s).
Proof.
  intros Hu Hf Hok Hj Hm. split.
  - change (call new_URL fetch env (LookupCode a) = Ok (plain (JSON_stringify x))).
    rewrite (call_built new_URL fetch env (LookupCode a) u Hu).
    rewrite (attempt_success fetch (LookupCode a) u response result Hf Hok Hj).
    simpl. rewrite (lookup_result_first _ _ _ Hm). reflexivity.
  - apply stringify_defined.
Qed.

Lemma lookup_returns_first_match_witness :
  lookup_code Scenario.new_URL
    (Scenario.always
       (Ok (Scenario.resolves 200
              (Scenario.expansion
                 (VArray [Scenario.firstMatch; Scenario.secondMatch])))))
    Scenario.env Scenario.hypertension
  = Ok {| content :=
            [ {| type := "text";
                 text := JSON_stringify Scenario.firstMatch |} ];
          isError := None |}
  /\ (Scenario.firstMatch <> VUndefined ->
      exists s, JSON_stringify Scenario.firstMatch = Some s).
Proof.
  eapply lookup_returns_first_match; reflexivity.
Defined.

(** C4. A successful lookup whose match list is absent or empty answers
    with the text "No matching codes found" and sets no error flag. *)
Theorem lookup_without_match
    (new_URL : string -> Result URL) (fetch : Request -> Result Response.t)
    (env : Env) (a : Lookup.args) (u : URL) (response : Response.t)
    (result : value) :
  new_URL (serverBase env ++ "/ValueSet/$expand") = Ok u ->
  fetch (GET (URL_toString (expandUrl u a))) = Ok response ->
  Response.ok response = true ->
  Response.json response = Ok result ->
  match_list result = Absent \/ match_list result = Matches [] ->
  lookup_code new_URL fetch env a
  = Ok {| content :=
            [ {| type := "text"; text := Some "No matching codes found" |} ];
          isError := None |}.
Proof.
  intros Hu Hf Hok Hj Hm.
  change (call new_URL fetch env (LookupCode a)
          = Ok (plain (Some "No matching codes found"))).
  rewrite (call_built new_URL fetch env (LookupCode a) u Hu).
  rewrite (attempt_success fetch (LookupCode a) u response result Hf Hok Hj).
  simpl. rewrite (lookup_result_no_match _ Hm). reflexivity.
Qed.

Lemma lookup_without_match_witness :
  lookup_code Scenario.new_URL
    (Scenario.always
       (Ok (Scenario.resolves 200 (Scenario.expansion (VArray [])))))
    Scenario.env Scenario.hypertension
  = Ok {| content :=
            [ {| type := "text"; text := Some "No matching codes found" |} ];
          isError := None |}.
Proof.
  eapply lookup_without_match; try reflexivity.
  right. reflexivity.
Defined.

(** ** Failures *)

(** C5. When the remote status is outside 200..299 and the body reads as
    text, either tool answers with the error flag set and the text
    "Terminology server error (status): body". *)
Theorem non_success_status_reported
    (new_URL : string -> Result URL) (fetch : Request -> Result Response.t)
    (env : Env) (t : invocation) (u : URL) (response : Response.t)
    (body : string) :
  new_URL (endpoint env t) = Ok u ->
  fetch (outbound t u) = Ok response ->
  (Response.status response < 200 \/ 300 <= Response.status response)%N ->
  Response.text response = Ok body ->
  call new_URL fetch env t
  = Ok {| content :=
            [ {| type := "text";
                 text := Some ("Terminology server error ("
                               ++ decimal (Response.status response)
                               ++ "): " ++ body) |} ];
          isError := Some true |}.
Proof.
  intros Hu Hf Hs Ht.
  assert (Hok : Response.ok response = false).
  { unfold Response.ok. apply andb_false_iff.
    destruct Hs as [Hs|Hs]; [left; apply N.leb_gt | right; apply N.ltb_ge];
      exact Hs. }
  rewrite (call_built new_URL fetch env t u Hu).
  unfold attempt. rewrite Hf. simpl. rewrite Hok. simpl. rewrite Ht.
  reflexivity.
Qed.

Lemma non_success_status_reported_witness :
  call Scenario.new_URL
    (Scenario.always (Ok (Scenario.fails 404 "ValueSet not found")))
    Scenario.env (ValidateCode Scenario.skull_fracture)
  = Ok {| content :=
            [ {| type := "text";
                 text := Some ("Terminology server error ("
                               ++ decimal 404 ++ "): "
                               ++ "ValueSet not found") |} ];
          isError := Some true |}.
Proof.
  eapply (non_success_status_reported Scenario.new_URL _ Scenario.env
            (ValidateCode Scenario.skull_fracture) _
            (Scenario.fails 404 "ValueSet not found")).
  - reflexivity.
  - reflexivity.
  - right. simpl. lia.
  - reflexivity.
Defined.

(** C6, as stated, fails: not every invocation returns.  The request URL
    is built before the try block, so with the configured base set to the
    empty string the URL constructor throws on "/ValueSet/$expand" and
    the exception leaves the lookup handler. *)
Lemma exception_escapes_counterexample :
  ~ (forall (new_URL : string -> Result URL)
            (fetch : Request -> Result Response.t) (env : Env)
            (t : invocation),
        exists r,
          call new_URL fetch env t = Ok r
          /\ forall u e,
               new_URL (endpoint env t) = Ok u ->
               raised fetch (on_success t) (outbound t u) e ->
               r = {| content :=
                        [ {| type := "text";
                             text := Some ((match t with
                                            | LookupCode _ =>
                                                "Error looking up codes: "
                                            | ValidateCode _ =>
                                                "Error validating code: "
                                            end) ++ error_text e) |} ];
                      isError := Some true |}).
Proof.
  intros H.
  destruct (H Scenario.new_URL
              (Scenario.always (Throw (ErrorObj "request failed")))
              {| TX_SERVER := Some EmptyString |}
              (LookupCode Scenario.hypertension)) as [r [Hr _]].
  cbv in Hr. discriminate Hr.
Qed.

(** C6, amended. Once the request URL is built, the handler of either
    tool always returns: an exception thrown by the outbound call or
    while the response is read does not leave it, and is answered with
    the error flag set and the text "Error looking up codes: message" for
    lookup-code, "Error validating code: message" for validate-code. *)
Theorem exceptions_are_caught
    (new_URL : string -> Result URL) (fetch : Request -> Result Response.t)
    (env : Env) (t : invocation) (u : URL) :
  new_URL (endpoint env t) = Ok u ->
  exists r,
    call new_URL fetch env t = Ok r
    /\ forall e,
         raised fetch (on_success t) (outbound t u) e ->
         r = {| content :=
                  [ {| type := "text";
                       text := Some ((match t with
                                      | LookupCode _ =>
                                          "Error looking up codes: "
                                      | ValidateCode _ =>
                                          "Error validating code: "
                                      end) ++ error_text e) |} ];
                isError := Some true |}.
Proof.
  intros Hu. rewrite (call_built new_URL fetch env t u Hu).
  eexists. split; [reflexivity|].
  intros e He. apply attempt_raised in He. rewrite He.
  destruct t; reflexivity.
Qed.

Lemma exceptions_are_caught_witness :
  exists r,
    call Scenario.new_URL
      (Scenario.always (Throw (ErrorObj "request failed")))
      Scenario.env (LookupCode Scenario.hypertension) = Ok r
    /\ r = {| content :=
                [ {| type := "text";
                     text := Some "Error looking up codes: request failed" |} ];
              isError := Some true |}.
Proof.
  destruct (exceptions_are_caught Scenario.new_URL
              (Scenario.always (Throw (ErrorObj "request failed")))
              Scenario.env (LookupCode Scenario.hypertension) _ eq_refl)
    as [r [Hr He]].
  exists r. split; [exact Hr|].
  apply (He (ErrorObj "request failed")).
  apply raised_by_fetch. reflexivity.
Defined.

(** What a try block that completes has returned. *)
Lemma attempt_returns
    (fetch : Request -> Result Response.t) (t : invocation) (u : URL)
    (r : ToolResponse) :
  attempt fetch t u = Ok r ->
  (exists response body,
      fetch (outbound t u) = Ok response /\ Response.ok response = false
      /\ Response.text response = Ok body /\ r = server_error response body)
  \/ (exists response result,
        fetch (outbound t u) = Ok response /\ Response.ok response = true
        /\ Response.json response = Ok result /\ on_success t result = Ok r).
Proof.
  unfold attempt.
  destruct (fetch (outbound t u)) as [response|e] eqn:Hf; simpl;
    [|discriminate].
  destruct (Response.ok response) eqn:Hok; simpl.
  - destruct (Response.json response) as [result|e] eqn:Hj; simpl;
      [|discriminate].
    intros H. right. exists response, result. auto.
  - destruct (Response.text response) as [body|e] eqn:Ht; simpl;
      [|discriminate].
    intros [= <-]. left. exists response, body. auto.
Qed.



(** ** The envelope *)

Lemma field_is_json (k : string) (ps : list (string * value)) :
  forallb (fun kv => is_json (snd kv)) ps = true ->
  field k ps = VUndefined \/ is_json (field k ps) = true.
Proof.
  unfold field. induction ps as [|[k' v] ps IH]; simpl.
  - now left.
  - intros H. apply andb_true_iff in H as [Hv Hps].
    destruct (k' =? k)%string.
    + now right.
    + now apply IH.
Qed.

Lemma json_not_undefined (v : value) : is_json v = true -> v <> VUndefined.
Proof. intros H ->. discriminate H. Qed.

Lemma plain_text_envelope (s : string) : text_envelope (plain (Some s)).
Proof. exists s. reflexivity. Qed.

Lemma plain_stringify_envelope (v : value) :
  v <> VUndefined -> text_envelope (plain (JSON_stringify v)).
Proof.
  intros H. destruct (stringify_defined v H) as [s ->].
  apply plain_text_envelope.
Qed.

(** The text of a lookup answer is a string when the body is JSON and its
    [contains] is no object other than an array. *)
Lemma lookup_result_text (result : value) (r : ToolResponse) :
  is_json result = true ->
  is_object (contains_of result) = false ->
  lookup_result result = Ok r ->
  text_envelope r.
Proof.
  intros Hjson Hobj.
  unfold lookup_result, expansion_contains_length, first_match.
  destruct result as [| |b|lit|s|xs|ps]; simpl;
    try discriminate;
    try (intros [= <-]; apply plain_text_envelope).
  simpl in Hjson, Hobj.
  pose proof (field_is_json "expansion" ps Hjson) as He.
  destruct (field "expansion" ps) as [| |b|lit|s|xs|es]; simpl;
    try (intros [= <-]; apply plain_text_envelope).
  destruct He as [He|He]; [discriminate He|]. simpl in He.
  pose proof (field_is_json "contains" es He) as Hc.
  destruct (field "contains" es) as [| |b|lit|s|xs|cs];
    cbn -[number_of_nat];
    try (intros [= <-]; apply plain_text_envelope);
    try discriminate Hobj.
  - rewrite truthy_length. destruct s as [|c s]; cbn -[JSON_stringify].
    + intros [= <-]. apply plain_text_envelope.
    + intros [= <-]. apply plain_stringify_envelope. discriminate.
  - rewrite truthy_length. destruct xs as [|x xs]; cbn -[JSON_stringify].
    + intros [= <-]. apply plain_text_envelope.
    + intros [= <-]. apply plain_stringify_envelope.
      destruct Hc as [Hc|Hc]; [discriminate Hc|]. simpl in Hc.
      apply andb_true_iff in Hc as [Hx _].
      now apply json_not_undefined.
Qed.

Lemma validationResult_object (a : Validate.args) (result v : value) :
  validationResult a result = Ok v -> exists props, v = VObject props.
Proof.
  unfold validationResult. repeat bind_returned.
  intros [= <-]. eexists; reflexivity.
Qed.

Lemma validate_result_text (a : Validate.args) (result : value)
      (r : ToolResponse) :
  validate_result a result = Ok r -> text_envelope r.
Proof.
  unfold validate_result.
  destruct (validationResult a result) as [v|e] eqn:Hv; cbn [bind];
    [|discriminate].
  intros [= <-]. apply plain_stringify_envelope.
  destruct (validationResult_object _ _ _ Hv) as [props ->]. discriminate.
Qed.

(** C9, as stated, fails: a successful lookup whose [contains] is an object
    with a truthy [length] and no element 0 answers with a content item
    whose text is [undefined]. *)
Lemma envelope_text_counterexample :
  ~ (forall (new_URL : string -> Result URL)
            (fetch : Request -> Result Response.t) (env : Env)
            (t : invocation) (r : ToolResponse),
        call new_URL fetch env t = Ok r -> text_envelope r).
Proof.
  intros H.
  destruct (H Scenario.new_URL
              (Scenario.always
                 (Ok (Scenario.resolves 200
                        (Scenario.expansion
                           (VObject [ ("length", VNumber "1") ])))))
              Scenario.env (LookupCode Scenario.hypertension)
              (plain None) eq_refl) as [s Hs].
  discriminate Hs.
Qed.

(** C9, amended. In every outcome the content of the response is a list
    of exactly one item of type text; its text is a string in every
    outcome but one, a successful lookup whose [expansion.contains] is an
    object that is no array (which the [ValueSet] type excludes). *)
Theorem envelope_has_one_text_item
    (new_URL : string -> Result URL) (fetch : Request -> Result Response.t)
    (env : Env) (t : invocation) (u : URL) (r : ToolResponse) :
  new_URL (endpoint env t) = Ok u ->
  call new_URL fetch env t = Ok r ->
  (exists s, content r = [ {| type := "text"; text := s |} ])
  /\ ((forall a response result,
          t = LookupCode a ->
          fetch (outbound t u) = Ok response ->
          Response.ok response = true ->
          Response.json response = Ok result ->
          is_json result = true /\ is_object (contains_of result) = false) ->
      text_envelope r).
Proof.
  intros Hu Hc. rewrite (call_built new_URL fetch env t u Hu) in Hc.
  injection Hc as Hc.
  destruct (attempt fetch t u) as [r0|e0] eqn:Ha; simpl in Hc; subst r.
  - destruct (attempt_returns _ _ _ _ Ha)
      as [(response & body & Hf & Hok & Ht & ->)
         |(response & result & Hf & Hok & Hj & Hs)].
    + split; [eexists; reflexivity|]. intros _. eexists; reflexivity.
    + split.
      * destruct (on_success_plain _ _ _ Hs) as [s ->].
        eexists; reflexivity.
      * intros Hty. destruct t as [a|a]; simpl in Hs.
        -- destruct (Hty a response result eq_refl Hf Hok Hj) as [H1 H2].
           exact (lookup_result_text _ _ H1 H2 Hs).
        -- exact (validate_result_text _ _ _ Hs).
  - split; [eexists; reflexivity|]. intros _. eexists; reflexivity.
Qed.

Lemma envelope_has_one_text_item_witness :
  (exists s,
      content (plain (JSON_stringify Scenario.firstMatch))
      = [ {| type := "text"; text := s |} ])
  /\ text_envelope (plain (JSON_stringify Scenario.firstMatch)).
Proof.
  destruct (envelope_has_one_text_item Scenario.new_URL
              (Scenario.always
                 (Ok (Scenario.resolves 200
                        (Scenario.expansion
                           (VArray [Scenario.firstMatch])))))
              Scenario.env (LookupCode Scenario.hypertension)
              _ (plain (JSON_stringify Scenario.firstMatch))
              eq_refl eq_refl) as [H1 H2].
  split; [exact H1|]. apply H2.
  intros a response result _ Hf _ Hj.
  injection Hf as <-. injection Hj as <-.
  split; reflexivity.
Defined.

(** ** The validation handler on a successful response *)

Lemma name_test (name : string) (p : value) :
  non_null p ->
  (n <- get_prop p "name" ;; Ok (strict_eq_string n name))
  = Ok (has_name name p).
Proof.
  unfold non_null. destruct p; simpl; try discriminate; reflexivity.
Qed.

Lemma array_find_named (name : string) (xs : list value) :
  Forall non_null xs ->
  array_find (fun p => n <- get_prop p "name" ;; Ok (strict_eq_string n name))
             xs
  = Ok (or_undefined (parameter_named name xs)).
Proof.
  unfold parameter_named. induction 1 as [|x xs Hx Hxs IH]; simpl.
  - reflexivity.
  - rewrite (name_test name x Hx). cbn [bind].
    destruct (has_name name x); [reflexivity | exact IH].
Qed.

Lemma find_parameter_named (result : value) (xs : list value)
      (name : string) :
  parameter_list result = Some xs ->
  Forall non_null xs ->
  find_parameter result name = Ok (or_undefined (parameter_named name xs)).
Proof.
  unfold parameter_list, find_parameter.
  destruct result as [| | | | | |ps]; try discriminate.
  cbn [get_prop bind].
  destruct (field "parameter" ps) as [| | | | |ys|]; try discriminate;
    intros [= <-] Hxs; try reflexivity.
  cbn [opt_call_find]. now apply array_find_named.
Qed.

Lemma named_is_object (name : string) (xs : list value) (p : value) :
  parameter_named name xs = Some p -> exists ps, p = VObject ps.
Proof.
  unfold parameter_named. intros H. apply find_some in H as [_ H].
  destruct p; try discriminate. eexists; reflexivity.
Qed.

Lemma opt_get_named (name key : string) (xs : list value) :
  opt_get (or_undefined (parameter_named name xs)) key
  = Ok (part key (parameter_named name xs)).
Proof.
  destruct (parameter_named name xs) as [p|] eqn:Hp; simpl.
  - destruct (named_is_object _ _ _ Hp) as [ps ->]. reflexivity.
  - reflexivity.
Qed.

Lemma validationResult_expected (a : Validate.args) (result : value)
      (xs : list value) :
  parameter_list result = Some xs ->
  Forall non_null xs ->
  validationResult a result
  = Ok (expected_validation (Validate.code a) (Validate.system a) xs).
Proof.
  intros Hp Hxs. unfold validationResult.
  rewrite !(find_parameter_named result xs _ Hp Hxs). cbn [bind].
  rewrite !opt_get_named. reflexivity.
Qed.


(** C2. A successful validation answers with the pretty-printed JSON of
    the validation result read from the parameter list by name: [valid]
    from the parameter named result, false without it; [code] and
    [system] from the parameters so named, the input's code and system
    without them; [version] and [display] from the parameters so named,
    absent without them.  The input version takes no part in it. *)
Theorem validation_result_by_name
    (new_URL : string -> Result URL) (fetch : Request -> Result Response.t)
    (env : Env) (a : Validate.args) (u : URL) (response : Response.t)
    (result : value) (xs : list value) :
  new_URL (serverBase env ++ "/ValueSet/$validate-code") = Ok u ->
  fetch (GET (URL_toString (validateUrl u a))) = Ok response ->
  Response.ok response = true ->
  Response.json response = Ok result ->
  parameter_list result = Some xs ->
  Forall non_null xs ->
  validate_code new_URL fetch env a
  = Ok {| content :=
            [ {| type := "text";
                 text := JSON_stringify
                           (expected_validation (Validate.code a)
                                                (Validate.system a) xs) |} ];
          isError := None |}
  /\ (exists s,
        JSON_stringify
          (expected_validation (Validate.code a) (Validate.system a) xs)
        = Some s)
  /\ (forall a',
        Validate.code a' = Validate.code a ->
        Validate.system a' = Validate.system a ->
        validationResult a' result = validationResult a result).
Proof.
  intros Hu Hf Hok Hj Hp Hxs. repeat split.
  - change (call new_URL fetch env (ValidateCode a)
            = Ok (plain (JSON_stringify
                           (expected_validation (Validate.code a)
                                                (Validate.system a) xs)))).
    rewrite (call_built new_URL fetch env (ValidateCode a) u Hu).
    rewrite (attempt_success fetch (ValidateCode a) u response result
               Hf Hok Hj).
    simpl. unfold validate_result.
    rewrite (validationResult_expected a result xs Hp Hxs). reflexivity.
  - apply stringify_defined. discriminate.
  - intros a' Hc Hs.
    rewrite !(validationResult_expected _ result xs Hp Hxs).
    now rewrite Hc, Hs.
Qed.

Lemma validation_result_by_name_witness :
  validate_code Scenario.new_URL
    (Scenario.always
       (Ok (Scenario.resolves 200
              (Scenario.parameters Scenario.valid_parameters))))
    Scenario.env Scenario.skull_fracture
  = Ok {| content :=
            [ {| type := "text";
                 text := JSON_stringify
                           (expected_validation "30371007"
                              "http://snomed.info/sct"
                              Scenario.valid_parameters) |} ];
          isError := None |}.
Proof.
  eapply (validation_result_by_name Scenario.new_URL _ Scenario.env
            Scenario.skull_fracture _ _ _ Scenario.valid_parameters).
  - reflexivity.
  - reflexivity.
  - reflexivity.
  - reflexivity.
  - reflexivity.
  - repeat constructor.
Defined.



(** ** The outbound request of the validation handler *)

Lemma params_get_delete_other (k k' : string) (ps : params) :
  k <> k' -> params_get k (params_delete k' ps) = params_get k ps.
Proof.
  intros Hk. induction ps as [|[k0 v0] ps IH]; simpl.
  - reflexivity.
  - destruct (String.eqb_spec k0 k') as [->|Hk0]; simpl.
    + destruct (String.eqb_spec k' k) as [->|_]; [now elim Hk | exact IH].
    + destruct (k0 =? k)%string; [reflexivity | exact IH].
Qed.


Lemma params_get_set_other (k k' v : string) (ps : params) :
  k <> k' -> params_get k (params_set k' v ps) = params_get k ps.
Proof.
  intros Hk. induction ps as [|[k0 v0] ps IH]; simpl.
  - destruct (String.eqb_spec k' k) as [->|_]; [now elim Hk | reflexivity].
  - destruct (String.eqb_spec k0 k') as [->|Hk0]; simpl.
    + destruct (String.eqb_spec k' k) as [->|_]; [now elim Hk|].
      now apply params_get_delete_other.
    + destruct (k0 =? k)%string; [reflexivity | exact IH].
Qed.


Lemma append_assoc (s1 s2 s3 : string) :
  (s1 ++ s2) ++ s3 = s1 ++ (s2 ++ s3).
Proof.
  induction s1 as [|c s1 IH]; simpl; [reflexivity | now rewrite IH].
Qed.






(** ** The input schema of lookup-code *)

(** C8, as stated, fails: the schema of lookup-code accepts an invocation
    whose [filter] and [url] are both the empty string, and the handler
    is called with them. *)
Lemma empty_strings_counterexample :
  ~ (forall raw : list (string * value),
        field "filter" raw = VString EmptyString
        \/ field "url" raw = VString EmptyString ->
        parse_lookup_args raw = None).
Proof.
  intros H.
  specialize (H [ ("filter", VString EmptyString);
                  ("url", VString EmptyString) ] (or_introl eq_refl)).
  discriminate H.
Qed.

(** C8, amended. Both fields of a lookup invocation are required strings:
    the declared schema accepts the invocation exactly when [filter] and
    [url] are both strings, empty or not, and the handler then receives
    these two strings; the schema rejects the invocation, and the handler
    does not run, when either is missing or is no string. *)
Theorem lookup_schema_requires_strings (raw : list (string * value)) :
  (schema_accepts lookup_schema raw = true <->
   exists f u, field "filter" raw = VString f
               /\ field "url" raw = VString u)
  /\ (forall a,
        parse_lookup_args raw = Some a <->
        field "filter" raw = VString (Lookup.filter a)
        /\ field "url" raw = VString (Lookup.url a))
  /\ (parse_lookup_args raw = None <->
      ~ exists f u, field "filter" raw = VString f
                    /\ field "url" raw = VString u).
Proof.
  assert (Hs : schema_accepts lookup_schema raw = true <->
               exists f u, field "filter" raw = VString f
                           /\ field "url" raw = VString u).
  { unfold schema_accepts, lookup_schema.
    cbn [forallb fst snd zod_accepts]. split.
    - destruct (field "filter" raw) as [| | | |f| |]; try discriminate.
      destruct (field "url" raw) as [| | | |u| |]; try discriminate.
      intros _. exists f, u. now split.
    - intros (f & u & -> & ->). reflexivity. }
  assert (Hp : parse_lookup_args raw
               = if schema_accepts lookup_schema raw
                 then Some {| Lookup.filter := string_of (field "filter" raw);
                              Lookup.url := string_of (field "url" raw) |}
                 else None).
  { unfold parse_lookup_args, zod_parse_object.
    destruct (schema_accepts lookup_schema raw); reflexivity. }
  split; [exact Hs|]. rewrite Hp.
  destruct (schema_accepts lookup_schema raw); split.
  - intros [af au]. cbn [Lookup.filter Lookup.url].
    destruct (proj1 Hs eq_refl) as (f & u & Hf & Hu). rewrite Hf, Hu.
    cbn [string_of]. split.
    + intros [= -> ->]. now split.
    + intros [[= ->] [= ->]]. reflexivity.
  - split; [discriminate|]. intros H. elim H. now apply Hs.
  - intros a. split; [discriminate|]. intros [Hf Hu].
    assert (E : false = true) by (apply Hs; eauto). discriminate E.
  - split; [|reflexivity]. intros _ H. apply Hs in H. discriminate H.
Qed.

(** ** The outbound request of the lookup handler *)




(** ** Search parameters are set, not appended *)

Lemma count_key_delete_same (k : string) (ps : params) :
  count_key k (params_delete k ps) = 0.
Proof.
  unfold count_key. induction ps as [|[k0 v0] ps IH]; simpl.
  - reflexivity.
  - destruct (k0 =? k)%string eqn:E; simpl; [exact IH|].
    rewrite E. exact IH.
Qed.

Lemma count_key_delete_other (k k' : string) (ps : params) :
  k <> k' -> count_key k (params_delete k' ps) = count_key k ps.
Proof.
  unfold count_key. intros Hk. induction ps as [|[k0 v0] ps IH]; simpl.
  - reflexivity.
  - destruct (String.eqb_spec k0 k') as [->|Hk0]; simpl.
    + destruct (String.eqb_spec k' k) as [->|_]; [now elim Hk | exact IH].
    + destruct (k0 =? k)%string; simpl; now rewrite IH.
Qed.

Lemma count_key_set_same (k v : string) (ps : params) :
  count_key k (params_set k v ps) = 1.
Proof.
  induction ps as [|[k0 v0] ps IH]; simpl.
  - unfold count_key. simpl. now rewrite String.eqb_refl.
  - destruct (String.eqb_spec k0 k) as [->|Hk0].
    + pose proof (count_key_delete_same k ps) as H.
      unfold count_key in *. simpl. rewrite String.eqb_refl. simpl.
      now rewrite H.
    + unfold count_key in *. simpl.
      apply String.eqb_neq in Hk0. rewrite Hk0. exact IH.
Qed.

Lemma count_key_set_other (k k' v : string) (ps : params) :
  k <> k' -> count_key k (params_set k' v ps) = count_key k ps.
Proof.
  intros Hk. induction ps as [|[k0 v0] ps IH]; simpl.
  - unfold count_key. simpl.
    destruct (String.eqb_spec k' k) as [->|_]; [now elim Hk | reflexivity].
  - destruct (String.eqb_spec k0 k') as [->|Hk0].
    + pose proof (count_key_delete_other k k' ps Hk) as H.
      unfold count_key in *. simpl.
      destruct (String.eqb_spec k' k) as [->|_]; [now elim Hk|].
      exact H.
    + unfold count_key in *. simpl.
      destruct (k0 =? k)%string; simpl; now rewrite IH.
Qed.

(** X2. Whatever query the base URL brings, the request URL of either
    handler carries each parameter the handler sets exactly once: [url]
    and [filter] for a lookup; [url], [system] and [code] for a
    validation, and [version] too when a non-empty one is given.  A
    parameter of the base under another name is kept as it is. *)
Theorem request_parameters_set_once (u0 : URL) :
  (forall a : Lookup.args,
      count_key "url" (searchParams (expandUrl u0 a)) = 1
      /\ count_key "filter" (searchParams (expandUrl u0 a)) = 1
      /\ forall k, k <> "url" -> k <> "filter" ->
           params_get k (searchParams (expandUrl u0 a))
           = params_get k (searchParams u0))
  /\ (forall a : Validate.args,
        count_key "url" (searchParams (validateUrl u0 a)) = 1
        /\ count_key "system" (searchParams (validateUrl u0 a)) = 1
        /\ count_key "code" (searchParams (validateUrl u0 a)) = 1
        /\ (forall v, version_given (Validate.version a) = Some v ->
              count_key "version" (searchParams (validateUrl u0 a)) = 1)
        /\ forall k, k <> "url" -> k <> "system" -> k <> "code" ->
             k <> "version" ->
             params_get k (searchParams (validateUrl u0 a))
             = params_get k (searchParams u0)).
Proof.
  split; intros a.
  - unfold expandUrl. cbn [searchParams_set searchParams]. repeat split.
    + rewrite count_key_set_other by discriminate.
      apply count_key_set_same.
    + apply count_key_set_same.
    + intros k H1 H2. now rewrite !params_get_set_other.
  - unfold validateUrl.
    destruct (version_given (Validate.version a)) as [v|];
      cbn [searchParams_set searchParams]; repeat split;
      try (intros k H1 H2 H3 H4; now rewrite !params_get_set_other);
      try (intros v' Hv'; try discriminate Hv');
      repeat (rewrite count_key_set_other by discriminate);
      apply count_key_set_same.
Qed.

(** ** The input schema of validate-code *)

(** X4. The declared schema of validate-code accepts an invocation
    exactly when [system], [code] and [url] are strings (empty or not)
    and [version] is a string or missing; the handler then receives these
    values, with no version when it is missing.  A [version] that is
    [null] is rejected by the schema. *)
Theorem validate_schema_accepts (raw : list (string * value)) :
  (schema_accepts validate_schema raw = true <->
   exists s c u,
     field "system" raw = VString s
     /\ field "code" raw = VString c
     /\ field "url" raw = VString u
     /\ (field "version" raw = VUndefined
         \/ exists v, field "version" raw = VString v))
  /\ (forall a,
        parse_validate_args raw = Some a <->
        field "system" raw = VString (Validate.system a)
        /\ field "code" raw = VString (Validate.code a)
        /\ field "url" raw = VString (Validate.url a)
        /\ field "version" raw
           = match Validate.version a with
             | Some v => VString v
             | None => VUndefined
             end)
  /\ (field "version" raw = VNull ->
      schema_accepts validate_schema raw = false
      /\ parse_validate_args raw = None).
Proof.
  assert (Hs : schema_accepts validate_schema raw = true <->
               exists s c u,
                 field "system" raw = VString s
                 /\ field "code" raw = VString c
                 /\ field "url" raw = VString u
                 /\ (field "version" raw = VUndefined
                     \/ exists v, field "version" raw = VString v)).
  { unfold schema_accepts, validate_schema.
    cbn [forallb fst snd zod_accepts]. split.
    - destruct (field "system" raw) as [| | | |s| |]; try discriminate.
      destruct (field "code" raw) as [| | | |c| |]; try discriminate.
      destruct (field "url" raw) as [| | | |u| |]; try discriminate.
      destruct (field "version" raw) as [| | | |v| |]; try discriminate;
        intros _; exists s, c, u; repeat split; eauto.
    - intros (s & c & u & -> & -> & -> & [-> | [v ->]]); reflexivity. }
  assert (Hp : parse_validate_args raw
               = if schema_accepts validate_schema raw
                 then Some {| Validate.system := string_of (field "system" raw);
                              Validate.code := string_of (field "code" raw);
                              Validate.url := string_of (field "url" raw);
                              Validate.version :=
                                optional_string_of (field "version" raw) |}
                 else None).
  { unfold parse_validate_args, zod_parse_object.
    destruct (schema_accepts validate_schema raw); reflexivity. }
  split; [exact Hs|]. rewrite Hp.
  destruct (schema_accepts validate_schema raw); split.
  - intros [s c u v].
    cbn [Validate.system Validate.code Validate.url Validate.version].
    destruct (proj1 Hs eq_refl) as (s' & c' & u' & Hs' & Hc' & Hu' & Hv').
    rewrite Hs', Hc', Hu'. cbn [string_of].
    destruct Hv' as [Hv'|[v' Hv']]; rewrite Hv'; cbn [optional_string_of];
      (split;
       [ intros [= -> -> -> <-]; auto
       | intros ([= ->] & [= ->] & [= ->] & Hv); destruct v as [v|];
         try discriminate Hv; try injection Hv as ->; reflexivity ]).
  - intros Hnull.
    destruct (proj1 Hs eq_refl) as (_ & _ & _ & _ & _ & _ & [Hv|[v Hv]]);
      congruence.
  - intros [s c u v].
    cbn [Validate.system Validate.code Validate.url Validate.version].
    split; [discriminate|]. intros (H1 & H2 & H3 & H4).
    assert (E : false = true).
    { apply Hs. exists s, c, u. repeat split; auto.
      destruct v as [v|]; [right; eauto | now left]. }
    discriminate E.
  - intros _. split; reflexivity.
Qed.

(** ** When reading a parsed body throws *)

Lemma lookup_result_throws (result : value) (e : exn) :
  lookup_result result = Throw e <->
  nullish result = true /\ e = cannot_read result "expansion".
Proof.
  unfold lookup_result, expansion_contains_length, first_match.
  destruct result as [| |b|lit|s|xs|ps]; cbn -[number_of_nat];
    try (split; [discriminate | intros [H _]; discriminate H]);
    try (split; [intros [= <-]; now split | intros [_ ->]; reflexivity]).
  destruct (field "expansion" ps) as [| |b|lit|s|xs|es];
    cbn -[number_of_nat];
    try (split; [discriminate | intros [H _]; discriminate H]).
  destruct (field "contains" es) as [| |b|lit|s|xs|cs];
    cbn -[number_of_nat];
    try (split; [discriminate | intros [H _]; discriminate H]);
    match goal with
    | |- context [truthy ?v] => destruct (truthy v)
    end; cbn;
    (split; [discriminate | intros [H _]; discriminate H]).
Qed.

(** X5. A successful lookup response whose parsed body is anything but
    [null] never ends in an error: whatever the shape of the body, the
    answer has no error flag.  A body that is [null] is answered with the
    error envelope of the lookup. *)
Theorem lookup_body_error_iff_null
    (new_URL : string -> Result URL) (fetch : Request -> Result Response.t)
    (env : Env) (a : Lookup.args) (u : URL) (response : Response.t)
    (result : value) :
  new_URL (serverBase env ++ "/ValueSet/$expand") = Ok u ->
  fetch (GET (URL_toString (expandUrl u a))) = Ok response ->
  Response.ok response = true ->
  Response.json response = Ok result ->
  (nullish result = false ->
   exists t, lookup_code new_URL fetch env a = Ok (plain t))
  /\ (nullish result = true ->
      lookup_code new_URL fetch env a
      = Ok (caught "Error looking up codes: "
                   (cannot_read result "expansion"))).
Proof.
  intros Hu Hf Hok Hj.
  change (lookup_code new_URL fetch env a)
    with (call new_URL fetch env (LookupCode a)).
  rewrite (call_built new_URL fetch env (LookupCode a) u Hu).
  rewrite (attempt_success fetch (LookupCode a) u response result Hf Hok Hj).
  cbn [on_success]. split; intros Hn.
  - destruct (lookup_result result) as [r|e] eqn:Hr.
    + destruct (on_success_plain (LookupCode a) result r Hr) as [t ->].
      exists t. reflexivity.
    + apply lookup_result_throws in Hr as [Hr _]. congruence.
  - rewrite (proj2 (lookup_result_throws result _) (conj Hn eq_refl)).
    reflexivity.
Qed.

Lemma lookup_body_error_iff_null_witness :
  lookup_code Scenario.new_URL
    (Scenario.always (Ok (Scenario.resolves 200 VNull)))
    Scenario.env Scenario.hypertension
  = Ok (caught "Error looking up codes: " (cannot_read VNull "expansion")).
Proof.
  assert (H : Response.ok (Scenario.resolves 200 VNull) = true)
    by reflexivity.
  exact (proj2 (lookup_body_error_iff_null Scenario.new_URL
                  (Scenario.always (Ok (Scenario.resolves 200 VNull)))
                  Scenario.env Scenario.hypertension _
                  (Scenario.resolves 200 VNull) VNull
                  eq_refl eq_refl H eq_refl)
               eq_refl).
Defined.

(** ** The searches of the validation handler *)

Lemma array_find_before_null (name : string) (xs : list value) :
  reaches_null name xs = false ->
  array_find (fun p => n <- get_prop p "name" ;; Ok (strict_eq_string n name))
             xs
  = Ok (or_undefined (parameter_named name xs)).
Proof.
  unfold parameter_named. induction xs as [|x xs IH]; simpl.
  - reflexivity.
  - destruct (nullish x) eqn:Hx; [discriminate|].
    rewrite (name_test name x Hx). cbn [bind].
    destruct (has_name name x); [reflexivity | exact IH].
Qed.

Lemma array_find_at_null (name : string) (xs : list value) :
  reaches_null name xs = true ->
  exists e,
    array_find
      (fun p => n <- get_prop p "name" ;; Ok (strict_eq_string n name)) xs
    = Throw e.
Proof.
  induction xs as [|x xs IH]; simpl.
  - discriminate.
  - destruct (nullish x) eqn:Hx.
    + intros _. destruct x; try discriminate Hx; eexists; reflexivity.
    + rewrite (name_test name x Hx). cbn [bind].
      destruct (has_name name x); [discriminate | exact IH].
Qed.

Lemma find_parameter_array (ps : list (string * value)) (xs : list value)
      (name : string) :
  field "parameter" ps = VArray xs ->
  find_parameter (VObject ps) name
  = array_find
      (fun p => n <- get_prop p "name" ;; Ok (strict_eq_string n name)) xs.
Proof.
  intros H. unfold find_parameter. cbn [get_prop bind]. rewrite H.
  reflexivity.
Qed.

(** X6. A search of the validation handler stops at the first parameter
    of the name it looks for.  With a parameter array, the handler builds
    its result exactly when none of its five searches comes to a [null]
    entry before it finds its parameter: entries behind the parameters
    found are not read, and a [null] entry that a search comes to makes
    the reading throw. *)
Theorem validation_reads_until_found
    (a : Validate.args) (ps : list (string * value)) (xs : list value) :
  field "parameter" ps = VArray xs ->
  (forallb (fun name => negb (reaches_null name xs)) searched_names = true ->
   validationResult a (VObject ps)
   = Ok (expected_validation (Validate.code a) (Validate.system a) xs))
  /\ (forallb (fun name => negb (reaches_null name xs)) searched_names
      = false ->
      exists e, validationResult a (VObject ps) = Throw e).
Proof.
  intros Hp. unfold validationResult, searched_names.
  cbn [forallb]. rewrite !(find_parameter_array ps xs _ Hp).
  destruct (reaches_null "result" xs) eqn:E1.
  { split; [discriminate|]. intros _.
    destruct (array_find_at_null _ _ E1) as [e ->]. eexists; reflexivity. }
  rewrite (array_find_before_null _ _ E1). cbn [bind negb andb].
  destruct (reaches_null "display" xs) eqn:E2.
  { split; [discriminate|]. intros _.
    destruct (array_find_at_null _ _ E2) as [e ->]. eexists; reflexivity. }
  rewrite (array_find_before_null _ _ E2). cbn [bind negb andb].
  destruct (reaches_null "code" xs) eqn:E3.
  { split; [discriminate|]. intros _.
    destruct (array_find_at_null _ _ E3) as [e ->]. eexists; reflexivity. }
  rewrite (array_find_before_null _ _ E3). cbn [bind negb andb].
  destruct (reaches_null "system" xs) eqn:E4.
  { split; [discriminate|]. intros _.
    destruct (array_find_at_null _ _ E4) as [e ->]. eexists; reflexivity. }
  rewrite (array_find_before_null _ _ E4). cbn [bind negb andb].
  destruct (reaches_null "version" xs) eqn:E5.
  { split; [discriminate|]. intros _.
    destruct (array_find_at_null _ _ E5) as [e ->]. eexists; reflexivity. }
  rewrite (array_find_before_null _ _ E5). cbn [bind negb andb].
  split; [intros _ | discriminate].
  rewrite !opt_get_named. reflexivity.
Qed.

Lemma validation_reads_until_found_witness :
  validationResult Scenario.skull_fracture
    (Scenario.parameters (Scenario.valid_parameters
                          ++ [ VObject [ ("name", VString "version");
                                         ("valueString", VString "1") ];
                               VNull ])%list)
  = Ok (expected_validation "30371007" "http://snomed.info/sct"
          (Scenario.valid_parameters
           ++ [ VObject [ ("name", VString "version");
                          ("valueString", VString "1") ];
                VNull ])%list).
Proof.
  unfold Scenario.parameters.
  apply (validation_reads_until_found Scenario.skull_fracture).
  - reflexivity.
  - reflexivity.
Defined.

(** X7. A successful validation response whose [parameter] is there and
    is no array is answered with the error envelope of the validation:
    the handler does not fall back to its defaults there. *)
Theorem validation_parameter_not_array
    (new_URL : string -> Result URL) (fetch : Request -> Result Response.t)
    (env : Env) (a : Validate.args) (u : URL) (response : Response.t)
    (ps : list (string * value)) :
  new_URL (serverBase env ++ "/ValueSet/$validate-code") = Ok u ->
  fetch (GET (URL_toString (validateUrl u a))) = Ok response ->
  Response.ok response = true ->
  Response.json response = Ok (VObject ps) ->
  nullish (field "parameter" ps) = false ->
  (forall xs, field "parameter" ps <> VArray xs) ->
  exists message,
    validate_code new_URL fetch env a
    = Ok {| content :=
              [ {| type := "text";
                   text := Some ("Error validating code: " ++ message) |} ];
            isError := Some true |}.
Proof.
  intros Hu Hf Hok Hj Hn Ha.
  change (validate_code new_URL fetch env a)
    with (call new_URL fetch env (ValidateCode a)).
  rewrite (call_built new_URL fetch env (ValidateCode a) u Hu).
  rewrite (attempt_success fetch (ValidateCode a) u response _ Hf Hok Hj).
  cbn [on_success]. unfold validate_result, validationResult, find_parameter.
  cbn [get_prop bind].
  destruct (field "parameter" ps) as [| | | | |xs|]; try discriminate Hn;
    try (now elim (Ha xs));
    (eexists; reflexivity).
Qed.

Lemma validation_parameter_not_array_witness :
  exists message,
    validate_code Scenario.new_URL
      (Scenario.always
         (Ok (Scenario.resolves 200
                (VObject [ ("parameter", VObject [] ) ]))))
      Scenario.env Scenario.skull_fracture
    = Ok {| content :=
              [ {| type := "text";
                   text := Some ("Error validating code: " ++ message) |} ];
            isError := Some true |}.
Proof.
  assert (H : Response.ok
                (Scenario.resolves 200
                   (VObject [ ("parameter", VObject [] ) ])) = true)
    by reflexivity.
  apply (validation_parameter_not_array Scenario.new_URL
           (Scenario.always
              (Ok (Scenario.resolves 200
                     (VObject [ ("parameter", VObject [] ) ]))))
           Scenario.env Scenario.skull_fracture _ _
           [ ("parameter", VObject [] ) ] eq_refl eq_refl H eq_refl eq_refl).
  intros xs. discriminate.
Defined.

Lemma coalesce_defined (v d : value) :
  nullish d = false -> nullish (coalesce v d) = false.
Proof.
  unfold coalesce. intros Hd. destruct (nullish v) eqn:Hv; assumption.
Qed.

(** X8. Whenever the validation handler builds its result, the result has
    the members [valid], [code], [system], [version] and [display] in
    this order, and [valid], [code] and [system] are never [null] or
    [undefined]: these three are always in the answer. *)
Theorem validation_result_members
    (a : Validate.args) (result v : value) :
  validationResult a result = Ok v ->
  exists valid code system version display,
    v = VObject [ ("valid", valid); ("code", code); ("system", system);
                  ("version", version); ("display", display) ]
    /\ nullish valid = false
    /\ nullish code = false
    /\ nullish system = false.
Proof.
  unfold validationResult. repeat bind_returned.
  intros [= <-]. do 5 eexists. split; [reflexivity|].
  repeat split; now apply coalesce_defined.
Qed.

Lemma validation_result_members_witness :
  exists valid code system version display,
    expected_validation "30371007" "http://snomed.info/sct"
      Scenario.valid_parameters
    = VObject [ ("valid", valid); ("code", code); ("system", system);
                ("version", version); ("display", display) ]
    /\ nullish valid = false
    /\ nullish code = false
    /\ nullish system = false.
Proof.
  apply (validation_result_members Scenario.skull_fracture
           (Scenario.parameters Scenario.valid_parameters)).
  reflexivity.
Defined.

(** X9. When a successful validation response names none of [code],
    [system], [version] and [display], the answer text is the object of
    exactly three members: [valid] as read (false by default), and the
    code and the system of the input, quoted; no version and no display
    member is written, whatever version the input gave. *)
Theorem validation_text_without_details
    (new_URL : string -> Result URL) (fetch : Request -> Result Response.t)
    (env : Env) (a : Validate.args) (u : URL) (response : Response.t)
    (result : value) (xs : list value) (b : bool) :
  new_URL (serverBase env ++ "/ValueSet/$validate-code") = Ok u ->
  fetch (GET (URL_toString (validateUrl u a))) = Ok response ->
  Response.ok response = true ->
  Response.json response = Ok result ->
  parameter_list result = Some xs ->
  Forall non_null xs ->
  parameter_named "code" xs = None ->
  parameter_named "system" xs = None ->
  parameter_named "version" xs = None ->
  parameter_named "display" xs = None ->
  coalesce (part "valueBoolean" (parameter_named "result" xs)) (VBool false)
  = VBool b ->
  validate_code new_URL fetch env a
  = Ok {| content :=
            [ {| type := "text";
                 text :=
                   Some ("{" ++ nl
                         ++ "  " ++ QuoteJSONString "valid" ++ ": "
                         ++ (if b then "true" else "false") ++ "," ++ nl
                         ++ "  " ++ QuoteJSONString "code" ++ ": "
                         ++ QuoteJSONString (Validate.code a) ++ "," ++ nl
                         ++ "  " ++ QuoteJSONString "system" ++ ": "
                         ++ QuoteJSONString (Validate.system a) ++ nl
                         ++ "}") |} ];
          isError := None |}.
Proof.
  intros Hu Hf Hok Hj Hp Hxs Hc Hs Hv Hd Hb.
  change (validate_code new_URL fetch env a)
    with (call new_URL fetch env (ValidateCode a)).
  rewrite (call_built new_URL fetch env (ValidateCode a) u Hu).
  rewrite (attempt_success fetch (ValidateCode a) u response result
             Hf Hok Hj).
  cbn [on_success]. unfold validate_result.
  rewrite (validationResult_expected a result xs Hp Hxs).
  unfold expected_validation. rewrite Hc, Hs, Hv, Hd, Hb.
  unfold JSON_stringify, plain.
  cbn -[QuoteJSONString String.append].
  rewrite ?append_assoc. reflexivity.
Qed.

Lemma validation_text_without_details_witness :
  validate_code Scenario.new_URL
    (Scenario.always
       (Ok (Scenario.resolves 200
              (Scenario.parameters
                 [ VObject [ ("name", VString "result");
                             ("valueBoolean", VBool false) ] ]))))
    Scenario.env Scenario.skull_fracture
  = Ok {| content :=
            [ {| type := "text";
                 text :=
                   Some ("{" ++ nl
                         ++ "  " ++ QuoteJSONString "valid" ++ ": "
                         ++ "false" ++ "," ++ nl
                         ++ "  " ++ QuoteJSONString "code" ++ ": "
                         ++ QuoteJSONString "30371007" ++ "," ++ nl
                         ++ "  " ++ QuoteJSONString "system" ++ ": "
                         ++ QuoteJSONString "http://snomed.info/sct" ++ nl
                         ++ "}") |} ];
          isError := None |}.
Proof.
  assert (H : Response.ok
                (Scenario.resolves 200
                   (Scenario.parameters
                      [ VObject [ ("name", VString "result");
                                  ("valueBoolean", VBool false) ] ]))
              = true) by reflexivity.
  apply (validation_text_without_details Scenario.new_URL
           (Scenario.always
              (Ok (Scenario.resolves 200
                     (Scenario.parameters
                        [ VObject [ ("name", VString "result");
                                    ("valueBoolean", VBool false) ] ]))))
           Scenario.env Scenario.skull_fracture _ _ _
           [ VObject [ ("name", VString "result");
                       ("valueBoolean", VBool false) ] ] false
           eq_refl eq_refl H eq_refl eq_refl).
  - repeat constructor.
  - reflexivity.
  - reflexivity.
  - reflexivity.
  - reflexivity.
  - reflexivity.
Defined.

(** ** The handler and the outside *)

(** X10. An exception of the URL constructor, which a configured base
    that is no absolute URL causes, is thrown before the try block: it
    leaves the handler of either tool, and no tool response is
    returned. *)
Theorem url_exception_leaves_handler
    (new_URL : string -> Result URL) (fetch : Request -> Result Response.t)
    (env : Env) (t : invocation) (e : exn) :
  new_URL (endpoint env t) = Throw e ->
  call new_URL fetch env t = Throw e
  /\ forall r, call new_URL fetch env t <> Ok r.
Proof.
  intros H.
  assert (Hc : call new_URL fetch env t = Throw e).
  { destruct t; simpl in *; unfold lookup_code, validate_code;
      rewrite H; reflexivity. }
  split; [exact Hc|]. intros r Hr. congruence.
Qed.

Lemma url_exception_leaves_handler_witness :
  call Scenario.new_URL (Scenario.always (Throw (ErrorObj "unused")))
       {| TX_SERVER := Some EmptyString |}
       (LookupCode Scenario.hypertension)
  = Throw (ErrorObj "Invalid URL").
Proof.
  apply (url_exception_leaves_handler Scenario.new_URL
           (Scenario.always (Throw (ErrorObj "unused")))
           {| TX_SERVER := Some EmptyString |}
           (LookupCode Scenario.hypertension) (ErrorObj "Invalid URL")).
  reflexivity.
Defined.

(** X11. The answer of a handler depends on the network through one
    request only, the one it sends: two networks that answer that
    request alike give the same tool response. *)
Theorem one_outbound_request
    (new_URL : string -> Result URL)
    (fetch fetch' : Request -> Result Response.t) (env : Env)
    (t : invocation) (u : URL) :
  new_URL (endpoint env t) = Ok u ->
  fetch (outbound t u) = fetch' (outbound t u) ->
  call new_URL fetch env t = call new_URL fetch' env t.
Proof.
  intros Hu Hf.
  rewrite (call_built new_URL fetch env t u Hu).
  rewrite (call_built new_URL fetch' env t u Hu).
  unfold attempt. now rewrite Hf.
Qed.

Lemma one_outbound_request_witness :
  call Scenario.new_URL
    (Scenario.always (Ok (Scenario.fails 500 "Server Error")))
    Scenario.env (LookupCode Scenario.hypertension)
  = call Scenario.new_URL
      (fun req =>
         if (method req =? "GET")%string
         then Ok (Scenario.fails 500 "Server Error")
         else Throw (ErrorObj "method not allowed"))
      Scenario.env (LookupCode Scenario.hypertension).
Proof.
  apply (one_outbound_request Scenario.new_URL _ _ Scenario.env
           (LookupCode Scenario.hypertension)
           {| prefix := "https://tx.ontoserver.csiro.au/fhir/ValueSet/$expand";
              searchParams := []; hash := EmptyString |}).
  - reflexivity.
  - reflexivity.
Defined.

(** ** The text of a rejected call *)

Lemma uint_digits (d : uint) :
  string_forall is_digit (NilEmpty.string_of_uint d) = true.
Proof.
  induction d; simpl; try rewrite IHd; reflexivity.
Qed.

Lemma decimal_digits (n : N) : string_forall is_digit (decimal n) = true.
Proof.
  unfold decimal, NilZero.string_of_uint.
  destruct (N.to_uint n) as [|d|d|d|d|d|d|d|d|d|d]; try reflexivity;
    match goal with
    | |- string_forall is_digit (NilEmpty.string_of_uint ?u) = true =>
        apply (uint_digits u)
    end.
Qed.

(** Digits followed by a closing parenthesis split in one way only. *)
Lemma digits_then_paren (s1 s2 r1 r2 : string) :
  string_forall is_digit s1 = true ->
  string_forall is_digit s2 = true ->
  s1 ++ String ")" r1 = s2 ++ String ")" r2 ->
  s1 = s2 /\ r1 = r2.
Proof.
  revert s2. induction s1 as [|c1 s1 IH]; intros [|c2 s2]; simpl.
  - intros _ _ [= ->]. now split.
  - intros _ H2 [= <- _]. discriminate H2.
  - intros H1 _ [= -> _]. discriminate H1.
  - intros H1 H2 [= -> E].
    apply andb_true_iff in H1 as [_ H1].
    apply andb_true_iff in H2 as [_ H2].
    destruct (IH s2 H1 H2 E) as [-> ->]. now split.
Qed.

(** X12. The answer to a rejected call tells the status and the body
    apart: two answers with the same text come from the same status and
    the same body, so neither is lost in the text. *)
Theorem server_error_text_injective
    (response1 response2 : Response.t) (body1 body2 : string) :
  server_error response1 body1 = server_error response2 body2 ->
  Response.status response1 = Response.status response2 /\ body1 = body2.
Proof.
  unfold server_error. intros [= H].
  apply digits_then_paren in H; try apply decimal_digits.
  destruct H as [Hd Hb]. split.
  - now apply decimal_inj.
  - now injection Hb.
Qed.

Lemma server_error_text_injective_witness :
  Response.status (Scenario.fails 404 "ValueSet not found")
  = Response.status (Scenario.fails 404 "ValueSet not found")
  /\ "ValueSet not found" = "ValueSet not found".
Proof.
  apply (server_error_text_injective
           (Scenario.fails 404 "ValueSet not found")
           (Scenario.fails 404 "ValueSet not found")).
  reflexivity.
Defined.

(** ** The SSE endpoint *)

Section SseFacts.

Variable connect : Sse.SSEServerTransport -> Result unit.
Variable handlePostMessage :
  Sse.SSEServerTransport -> nat -> nat -> Result unit.
Variable env : Sse.Env.

Lemma sse_transport_after_get (current : option Sse.SSEServerTransport)
      (res : nat) :
  Sse.transport (Sse.get_sse connect env current res)
  = Some {| Sse.post_path := Sse.basePath env ++ "/messages";
            Sse.res := res |}.
Proof.
  unfold Sse.get_sse. now destruct (connect _).
Qed.

Lemma sse_transport_after_post (current : option Sse.SSEServerTransport)
      (req res : nat) :
  Sse.transport (Sse.post_messages handlePostMessage current req res)
  = current.
Proof.
  unfold Sse.post_messages. now destruct current.
Qed.

Lemma sse_serve_transport (rs : list Sse.request)
      (current : option Sse.SSEServerTransport) :
  fst (Sse.serve connect handlePostMessage env current rs)
  = match Sse.last_connection rs with
    | Some res =>
        Some {| Sse.post_path := Sse.basePath env ++ "/messages";
                Sse.res := res |}
    | None => current
    end.
Proof.
  revert current. induction rs as [|r rs IH]; intros current.
  - reflexivity.
  - cbn [Sse.serve Sse.last_connection].
    specialize (IH (Sse.transport
                      (Sse.route connect handlePostMessage env current r))).
    destruct (Sse.serve connect handlePostMessage env
                (Sse.transport
                   (Sse.route connect handlePostMessage env current r)) rs)
      as [final later] eqn:E.
    cbn [fst] in *. rewrite IH. destruct r as [res|req res]; cbn [Sse.route].
    + rewrite sse_transport_after_get.
      now destruct (Sse.last_connection rs).
    + now rewrite sse_transport_after_post.
Qed.

End SseFacts.

(** X13. The SSE endpoint keeps one transport, that of the latest
    [GET /sse]: after any run of requests with a connection in it, a
    [POST /messages] is handed to the transport made for the last
    connection request, whether or not connecting it succeeded, and to no
    earlier one. *)
Theorem sse_latest_connection_serves
    (connect : Sse.SSEServerTransport -> Result unit)
    (handlePostMessage : Sse.SSEServerTransport -> nat -> nat -> Result unit)
    (env : Sse.Env) (current : option Sse.SSEServerTransport)
    (rs : list Sse.request) (latest req res : nat) :
  Sse.last_connection rs = Some latest ->
  let t := {| Sse.post_path := Sse.basePath env ++ "/messages";
              Sse.res := latest |} in
  Sse.post_messages handlePostMessage
    (fst (Sse.serve connect handlePostMessage env current rs)) req res
  = {| Sse.transport := Some t;
       Sse.effects := [ Sse.Debug "Received message" req;
                        Sse.HandlePostMessage t req res ];
       Sse.outcome := handlePostMessage t req res |}.
Proof.
  intros H. cbv zeta. rewrite sse_serve_transport, H. reflexivity.
Qed.

Lemma sse_latest_connection_serves_witness :
  Sse.post_messages (fun _ _ _ => Ok tt)
    (fst (Sse.serve (fun _ => Ok tt) (fun _ _ _ => Ok tt)
            {| Sse.PORT := None; Sse.BASE_PATH := None |} None
            [ Sse.GetSse 1; Sse.PostMessages 2 3; Sse.GetSse 4 ])) 5 6
  = {| Sse.transport :=
         Some {| Sse.post_path := "/messages"; Sse.res := 4 |};
       Sse.effects :=
         [ Sse.Debug "Received message" 5;
           Sse.HandlePostMessage
             {| Sse.post_path := "/messages"; Sse.res := 4 |} 5 6 ];
       Sse.outcome := Ok tt |}.
Proof.
  apply (sse_latest_connection_serves (fun _ => Ok tt) (fun _ _ _ => Ok tt)
           {| Sse.PORT := None; Sse.BASE_PATH := None |} None
           [ Sse.GetSse 1; Sse.PostMessages 2 3; Sse.GetSse 4 ] 4 5 6).
  reflexivity.
Defined.

(** X14. Before the first [GET /sse] there is no transport: in a run
    without a connection request the variable stays unassigned, and a
    [POST /messages] then logs the message, hands it to nothing and its
    handler rejects with the TypeError of a call on [undefined]. *)
Theorem sse_post_before_connection
    (connect : Sse.SSEServerTransport -> Result unit)
    (handlePostMessage : Sse.SSEServerTransport -> nat -> nat -> Result unit)
    (env : Sse.Env) (rs : list Sse.request) (req res : nat) :
  Sse.last_connection rs = None ->
  fst (Sse.serve connect handlePostMessage env None rs) = None
  /\ Sse.post_messages handlePostMessage
       (fst (Sse.serve connect handlePostMessage env None rs)) req res
     = {| Sse.transport := None;
          Sse.effects := [ Sse.Debug "Received message" req ];
          Sse.outcome :=
            Throw (ErrorObj "Cannot read properties of undefined (reading 'handlePostMessage')") |}.
Proof.
  intros H. rewrite sse_serve_transport, H. split; reflexivity.
Qed.

Lemma sse_post_before_connection_witness :
  fst (Sse.serve (fun _ => Ok tt) (fun _ _ _ => Ok tt)
         {| Sse.PORT := None; Sse.BASE_PATH := None |} None
         [ Sse.PostMessages 1 2 ]) = None
  /\ Sse.post_messages (fun _ _ _ => Ok tt)
       (fst (Sse.serve (fun _ => Ok tt) (fun _ _ _ => Ok tt)
               {| Sse.PORT := None; Sse.BASE_PATH := None |} None
               [ Sse.PostMessages 1 2 ])) 3 4
     = {| Sse.transport := None;
          Sse.effects := [ Sse.Debug "Received message" 3 ];
          Sse.outcome :=
            Throw (ErrorObj "Cannot read properties of undefined (reading 'handlePostMessage')") |}.
Proof.
  apply (sse_post_before_connection (fun _ => Ok tt) (fun _ _ _ => Ok tt)
           {| Sse.PORT := None; Sse.BASE_PATH := None |}
           [ Sse.PostMessages 1 2 ] 3 4).
  reflexivity.
Defined.
